(** * classiq-ha: task lifecycle and result-visibility protocol

    A shallow embedding of the submission / status-query routes
    (app/routes.py), the execution actor (app/tasks.py), the id helper
    (app/helpers.py) and the settings they share (app/settings.py).

    Effectful code is written in a small free monad [prog] over the
    primitive operations the service performs on its collaborators (the
    Redis key-value store, the Dramatiq broker queue, the result backend
    and the operating system's entropy source).  Programs are run
    sequentially by [run], or one primitive operation at a time by
    [step1], which gives the interleavings of concurrent requests and
    workers.  Log calls are left out: they touch none of the shared
    state. *)

From Stdlib Require Import ZArith String Ascii List Lia.
From stdpp Require Import gmap strings list pretty.

Local Open Scope string_scope.
Local Open Scope list_scope.

(** ** Python values that can come back from the result backend *)

Unset Elimination Schemes.
Inductive PyVal : Type :=
| PyNone
| PyBool (b : bool)
| PyInt (z : Z)
| PyFloat (bits : Z)
| PyStr (s : string)
| PyBytes (b : list Byte.byte)
| PyByteArray (b : list Byte.byte)
| PyList (items : list PyVal)
| PyDict (items : list (PyVal * PyVal)).
Set Elimination Schemes.

(** [isinstance(v, (bytes, bytearray))] and [isinstance(v, dict)]. *)
Definition is_bytes_like (v : PyVal) : option (list Byte.byte) :=
  match v with
  | PyBytes b | PyByteArray b => Some b
  | _ => None
  end.

Definition is_dict (v : PyVal) : bool :=
  match v with
  | PyDict _ => true
  | _ => false
  end.

(** ** Exceptions

    Every exception the service meets derives from Python's [Exception].
    [ResultMissing] and [ResultTimeout] are Dramatiq's; [HTTPException] is
    FastAPI's; [Exception cls msg] stands for any other one, of class
    [cls], with [str(e) = msg]. *)

Inductive exn : Type :=
| ResultMissing (msg : string)
| ResultTimeout (msg : string)
| HTTPException (status_code : Z) (detail : string)
| Exception (cls : string) (msg : string).

Definition exn_str (e : exn) : string :=
  match e with
  | ResultMissing msg | ResultTimeout msg => msg
  | HTTPException status detail => pretty status +:+ ": " +:+ detail
  | Exception _ msg => msg
  end.

(** ** Identifiers: [uuid.uuid4], its [hex] and [str] renderings *)

Module UUID.

Definition hex_alphabet : list ascii :=
  list_ascii_of_string "0123456789abcdef".

Definition hexdigit (d : Z) : ascii :=
  nth (Z.to_nat d) hex_alphabet "0"%char.

(** ['%0nx' % z] for [0 <= z < 16^n]: exactly [n] digits, most
    significant first. *)
Fixpoint hex_fixed (n : nat) (z : Z) : string :=
  match n with
  | O => EmptyString
  | S n' => hex_fixed n' (z / 16) +:+ String (hexdigit (z mod 16)) EmptyString
  end.

(** [UUID(bytes=os.urandom(16), version=4).int]: [r] is the 16 random
    bytes read as a big-endian integer; the variant and version bits
    are then forced. *)
Definition uuid4_int (r : Z) : Z :=
  let int := r in
  let int := Z.land int (Z.lnot (Z.shiftl 0xc000 48)) in
  let int := Z.lor int (Z.shiftl 0x8000 48) in
  let int := Z.land int (Z.lnot (Z.shiftl 0xf000 64)) in
  let int := Z.lor int (Z.shiftl 4 76) in
  int.

(** [UUID.hex]: ['%032x' % self.int]. *)
Definition hex (int : Z) : string := hex_fixed 32 int.

(** [UUID.__str__]: the hex digits grouped 8-4-4-4-12. *)
Definition dashed (h : string) : string :=
  substring 0 8 h +:+ "-" +:+ substring 8 4 h +:+ "-" +:+
  substring 12 4 h +:+ "-" +:+ substring 16 4 h +:+ "-" +:+
  substring 20 12 h.

Definition str (int : Z) : string := dashed (hex int).

Definition is_lower_hex (c : ascii) : bool :=
  existsb (Ascii.eqb c) hex_alphabet.

(** The regular expression [^[0-9a-f]{32}$] of the helper's tests. *)
Definition HEX_RE_match (s : string) : bool :=
  (String.length s =? 32)%nat &&
  forallb is_lower_hex (list_ascii_of_string s).

End UUID.

(** ** Strings: [str.strip] and truthiness

    Request bodies are modelled as ASCII text; [isspace] is Python's
    [str.isspace] on that range (tab, line feed, vertical tab, form feed,
    carriage return, the four separators 0x1c-0x1f and the space). *)

Definition isspace (c : ascii) : bool :=
  let n := nat_of_ascii c in
  ((9 <=? n) && (n <=? 13) || (28 <=? n) && (n <=? 32))%nat.

Fixpoint lstrip_list (l : list ascii) : list ascii :=
  match l with
  | c :: l' => if isspace c then lstrip_list l' else l
  | [] => []
  end.

Definition strip (s : string) : string :=
  string_of_list_ascii
    (rev (lstrip_list (rev (lstrip_list (list_ascii_of_string s))))).

(** Truth value of a [str]: false exactly for the empty string. *)
Definition str_truthy (s : string) : bool :=
  match s with
  | EmptyString => false
  | String _ _ => true
  end.

(** ** app/settings.py: the values both the routes and the actor import *)

Record Settings : Type := {
  QC_TASK_TIME_LIMIT_MS : Z;
  QC_TASK_MAX_RETRIES : Z;
  QC_TASK_DEFAULT_SHOTS : Z
}.

(** The defaults used when the environment sets nothing. *)
Definition default_settings : Settings :=
  {| QC_TASK_TIME_LIMIT_MS := 300000;
     QC_TASK_MAX_RETRIES := 3;
     QC_TASK_DEFAULT_SHOTS := 1024 |}.

(** ** Messages, responses *)

(** A Dramatiq message of the [execute_qasm3] actor: positional
    arguments are empty, the keyword arguments are [task_id] and
    [qasm3_str]. *)
Record Message : Type := {
  queue_name : string;
  actor_name : string;
  message_id : string;
  kwargs_task_id : string;
  kwargs_qasm3_str : string
}.

(** app/models.py *)
Record TaskDTO : Type := { qc : string }.

Record TaskSubmitResponse : Type := {
  task_id : string;
  message : string
}.

(** [TaskStatusResponse], discriminated by its ["status"] field:
    ["completed"], ["pending"], ["error"]. *)
Inductive TaskStatusResponse : Type :=
| Completed (result : PyVal)
| Pending (message : string)
| Error (message : string).

(** The four statuses of the specification in terms of the responses. *)
Definition NotFound : TaskStatusResponse := Error "Task not found.".
Definition StillPending : TaskStatusResponse := Pending "Task is still in progress.".
Definition FormatInvalid : TaskStatusResponse := Error "Task result format invalid.".

(** ** The shared world *)

(** What the collaborators were asked to do, oldest first. *)
Inductive event : Type :=
| EvSet (key : string) (value : list Byte.byte) (px : Z)
| EvGet (key : string)
| EvDelete (key : string)
| EvEnqueue (m : Message)
| EvDequeue (m : option Message)
| EvGetResult (mid : string)
| EvStoreResult (mid : string) (v : PyVal).

(** [redis] maps a key to its value and the [px] expiry it was set with;
    [results] is the result backend, keyed by message id;
    [backend_fault] is a condition under which the backend fails every
    retrieval (a timeout, a lost connection); [entropy] is what
    [os.urandom(16)] will return at each future call. *)
Record World : Type := {
  redis : gmap string (list Byte.byte * Z);
  queue : list Message;
  results : gmap string PyVal;
  backend_fault : option exn;
  entropy : nat -> Z;
  cursor : nat;
  history : list event
}.

Definition init_world (e : nat -> Z) : World :=
  {| redis := ∅; queue := []; results := ∅; backend_fault := None;
     entropy := e; cursor := 0; history := [] |}.

Definition record (ev : event) (w : World) : World :=
  {| redis := redis w; queue := queue w; results := results w;
     backend_fault := backend_fault w; entropy := entropy w;
     cursor := cursor w; history := history w ++ [ev] |}.

Definition with_redis (r : gmap string (list Byte.byte * Z)) (w : World) : World :=
  {| redis := r; queue := queue w; results := results w;
     backend_fault := backend_fault w; entropy := entropy w;
     cursor := cursor w; history := history w |}.

Definition with_queue (q : list Message) (w : World) : World :=
  {| redis := redis w; queue := q; results := results w;
     backend_fault := backend_fault w; entropy := entropy w;
     cursor := cursor w; history := history w |}.

Definition with_results (r : gmap string PyVal) (w : World) : World :=
  {| redis := redis w; queue := queue w; results := r;
     backend_fault := backend_fault w; entropy := entropy w;
     cursor := cursor w; history := history w |}.

Definition with_fault (f : option exn) (w : World) : World :=
  {| redis := redis w; queue := queue w; results := results w;
     backend_fault := f; entropy := entropy w;
     cursor := cursor w; history := history w |}.

Definition advance (w : World) : World :=
  {| redis := redis w; queue := queue w; results := results w;
     backend_fault := backend_fault w; entropy := entropy w;
     cursor := S (cursor w); history := history w |}.

(** ** Primitive operations and programs *)

Inductive op : Type -> Type :=
| os_urandom16 : op Z
| redis_set (key : string) (value : list Byte.byte) (px : Z) : op unit
| redis_get (key : string) : op (option (list Byte.byte))
| redis_delete (key : string) : op unit
| broker_enqueue (m : Message) : op unit
| broker_dequeue : op (option Message)
| backend_get_result (mid : string) : op (exn + PyVal)
| backend_store_result (mid : string) (v : PyVal) : op unit.

(** Non-blocking retrieval: the fault if there is one, the stored value
    if there is one, [ResultMissing] otherwise. *)
Definition get_result_outcome (w : World) (mid : string) : exn + PyVal :=
  match backend_fault w with
  | Some e => inl e
  | None =>
      match results w !! mid with
      | Some v => inr v
      | None => inl (ResultMissing "missing")
      end
  end.

Definition exec_op {X : Type} (o : op X) (w : World) : X * World :=
  match o in op X return X * World with
  | os_urandom16 => (entropy w (cursor w) mod 2 ^ 128, advance w)%Z
  | redis_set k v px =>
      (tt, record (EvSet k v px) (with_redis (<[k := (v, px)]> (redis w)) w))
  | redis_get k => (fst <$> redis w !! k, record (EvGet k) w)
  | redis_delete k =>
      (tt, record (EvDelete k) (with_redis (delete k (redis w)) w))
  | broker_enqueue m =>
      (tt, record (EvEnqueue m) (with_queue (queue w ++ [m]) w))
  | broker_dequeue =>
      match queue w with
      | [] => (None, record (EvDequeue None) w)
      | m :: q => (Some m, record (EvDequeue (Some m)) (with_queue q w))
      end
  | backend_get_result mid =>
      (get_result_outcome w mid, record (EvGetResult mid) w)
  | backend_store_result mid v =>
      (tt, record (EvStoreResult mid v)
             (with_results (<[mid := v]> (results w)) w))
  end.

Inductive prog (A : Type) : Type :=
| Ret (a : A)
| Raise (e : exn)
| Do {X : Type} (o : op X) (k : X -> prog A).

Arguments Ret {A} a.
Arguments Raise {A} e.
Arguments Do {A X} o k.

Fixpoint bind {A B : Type} (m : prog A) (f : A -> prog B) : prog B :=
  match m with
  | Ret a => f a
  | Raise e => Raise e
  | Do o k => Do o (fun x => bind (k x) f)
  end.

(** [try: m except Exception as e: h e] *)
Fixpoint try_except {A : Type} (m : prog A) (h : exn -> prog A) : prog A :=
  match m with
  | Ret a => Ret a
  | Raise e => h e
  | Do o k => Do o (fun x => try_except (k x) h)
  end.

Definition call {X : Type} (o : op X) : prog X := Do o Ret.

(** A pure call that returns or raises. *)
Definition lift {A : Type} (r : exn + A) : prog A :=
  match r with
  | inl e => Raise e
  | inr a => Ret a
  end.

Notation "'let*' x ':=' m 'in' k" := (bind m (fun x => k))
  (at level 10, x name, m at level 100, k at level 200).

(** Sequential execution: the outcome and the world it leaves.  Effects
    done before an exception stay done. *)
Fixpoint run {A : Type} (m : prog A) (w : World) : (exn + A) * World :=
  match m with
  | Ret a => (inr a, w)
  | Raise e => (inl e, w)
  | Do o k => let '(x, w') := exec_op o w in run (k x) w'
  end.

(** One primitive operation of a running program. *)
Definition step1 {A : Type} (m : prog A) (w : World) : prog A * World :=
  match m with
  | Do o k => let '(x, w') := exec_op o w in (k x, w')
  | _ => (m, w)
  end.

Definition finished {A : Type} (m : prog A) : bool :=
  match m with
  | Do _ _ => false
  | _ => true
  end.

(** ** External collaborators

    The QASM3 parser and printer, the simulator, and the UTF-8 and JSON
    decoders are outside the service.  Each is a function that returns or
    raises; nothing more is assumed of them. *)

Class Collaborators : Type := {
  Circuit : Type;
  qasm3_loads : string -> exn + Circuit;
  qasm3_dumps : Circuit -> exn + string;
  (** [AerSimulator().run(circuit, shots=shots).result().get_counts()] *)
  simulate_counts : Circuit -> Z -> exn + list (string * Z);
  bytes_decode_utf8 : list Byte.byte -> exn + string;
  json_loads : string -> exn + PyVal
}.

(** [dict(counts)] *)
Definition dict_of_counts (counts : list (string * Z)) : PyVal :=
  PyDict (map (fun kv => (PyStr (fst kv), PyInt (snd kv))) counts).

(** ** app/helpers.py *)

Definition uuid4 : prog Z :=
  let* r := call os_urandom16 in Ret (UUID.uuid4_int r).

Definition new_task_id : prog string :=
  let* u := uuid4 in Ret (UUID.hex u).

(** Dramatiq gives each message the id [str(uuid4())]. *)
Definition generate_unique_id : prog string :=
  let* u := uuid4 in Ret (UUID.str u).

(** ** app/tasks.py and app/routes.py *)

Definition _SUBMITTED_PREFIX : string := "task_submitted:".

Definition _submitted_key (task_id : string) : string :=
  _SUBMITTED_PREFIX +:+ task_id.

(** The options the actor is declared with. *)
Record ActorOptions : Type := {
  time_limit : Z;
  opt_actor_name : string;
  max_retries : Z;
  throws : list string;
  store_results : bool
}.

Section Service.

Context `{Collaborators} (cfg : Settings).

Definition qasm3_task_options : ActorOptions :=
  {| time_limit := QC_TASK_TIME_LIMIT_MS cfg;
     opt_actor_name := "execute_qasm3";
     max_retries := QC_TASK_MAX_RETRIES cfg;
     throws := ["QiskitUserConfigError"; "MissingOptionalLibraryError"];
     store_results := true |}.

(** The body of the actor. *)
Definition qasm3_task (task_id qasm3_str : string) (shots : Z) : prog PyVal :=
  try_except
    (let* circuit := lift (qasm3_loads qasm3_str) in
     let* counts := lift (simulate_counts circuit shots) in
     let* _ := call (redis_delete ("task_submitted:" +:+ task_id)) in
     Ret (dict_of_counts counts))
    (fun e => Raise e).

(** [qasm3_task.message(task_id=..., qasm3_str=...)] *)
Definition qasm3_task_message (task_id qasm3_str : string) : prog Message :=
  let* mid := generate_unique_id in
  Ret {| queue_name := "default";
         actor_name := opt_actor_name qasm3_task_options;
         message_id := mid;
         kwargs_task_id := task_id;
         kwargs_qasm3_str := qasm3_str |}.

(** A worker processing one message: it calls the actor with the
    message's keyword arguments ([shots] takes its default) and, the
    actor being declared with [store_results], the results middleware
    stores what it returned under the message id.  An exception leaves
    the backend as it is and goes on to the queue's retry policy. *)
Definition process_message (m : Message) : prog unit :=
  let* result :=
    qasm3_task (kwargs_task_id m) (kwargs_qasm3_str m)
      (QC_TASK_DEFAULT_SHOTS cfg) in
  if store_results qasm3_task_options
  then call (backend_store_result (message_id m) result)
  else Ret tt.

Definition worker_step : prog unit :=
  let* next := call broker_dequeue in
  match next with
  | Some m => process_message m
  | None => Ret tt
  end.

Definition submit_task (body : TaskDTO) : prog TaskSubmitResponse :=
  let* task_id := new_task_id in
  if negb (str_truthy (qc body)) || negb (str_truthy (strip (qc body)))
  then Raise (HTTPException 400 "QASM3 code cannot be empty")
  else
    let* circuit :=
      try_except
        (lift (qasm3_loads (strip (qc body))))
        (fun _ => Raise (HTTPException 400 "QASM3 code is not valid")) in
    let* dumped := lift (qasm3_dumps circuit) in
    let* msg := qasm3_task_message task_id dumped in
    let* _ := call (broker_enqueue msg) in
    let ttl_ms :=
      (QC_TASK_TIME_LIMIT_MS cfg * QC_TASK_MAX_RETRIES cfg)%Z in
    let* _ :=
      call (redis_set (_submitted_key (message_id msg))
              (Byte.x31 :: nil) ttl_ms) in
    Ret {| task_id := message_id msg;
           message := "Task submitted successfully." |}.

(** The first steps of [task_status]'s [try] block after retrieval:
    bytes are decoded and parsed, anything that fails there answers at
    once. *)
Definition decode_result (result : PyVal) : TaskStatusResponse + PyVal :=
  match is_bytes_like result with
  | Some b =>
      match bytes_decode_utf8 b with
      | inl _ => inl FormatInvalid
      | inr text =>
          match json_loads text with
          | inl _ => inl FormatInvalid
          | inr v => inr v
          end
      end
  | None => inr result
  end.

Definition marker_status (task_id : string) : prog TaskStatusResponse :=
  let* flag := call (redis_get (_submitted_key task_id)) in
  match flag with
  | Some _ => Ret StillPending
  | None => Ret NotFound
  end.

Definition task_status (task_id : string) : prog TaskStatusResponse :=
  try_except
    (let* outcome := call (backend_get_result task_id) in
     let* result := lift outcome in
     match decode_result result with
     | inl response => Ret response
     | inr result =>
         if negb (is_dict result)
         then Ret FormatInvalid
         else
           let* _ := call (redis_delete (_submitted_key task_id)) in
           Ret (Completed result)
     end)
    (fun e =>
       match e with
       | ResultMissing _ => marker_status task_id
       | ResultTimeout _ => marker_status task_id
       | _ => Ret (Error (exn_str e))
       end).

End Service.

(** ** What an accepted submission leaves behind

    [submit_task] reads the entropy source twice: once for [new_task_id],
    once for the id of the message. *)

Definition first_draw (w : World) : Z := (entropy w (cursor w) mod 2 ^ 128)%Z.
Definition second_draw (w : World) : Z := (entropy w (S (cursor w)) mod 2 ^ 128)%Z.

Definition submitted_message (dumped : string) (w : World) : Message :=
  {| queue_name := "default";
     actor_name := "execute_qasm3";
     message_id := UUID.str (UUID.uuid4_int (second_draw w));
     kwargs_task_id := UUID.hex (UUID.uuid4_int (first_draw w));
     kwargs_qasm3_str := dumped |}.

Definition submit_response (w : World) : TaskSubmitResponse :=
  {| task_id := UUID.str (UUID.uuid4_int (second_draw w));
     message := "Task submitted successfully." |}.

Definition world_after_submit (cfg : Settings) (dumped : string) (w : World) : World :=
  let msg := submitted_message dumped w in
  let ttl := (QC_TASK_TIME_LIMIT_MS cfg * QC_TASK_MAX_RETRIES cfg)%Z in
  {| redis := <[_submitted_key (message_id msg) := (Byte.x31 :: nil, ttl)]> (redis w);
     queue := queue w ++ [msg];
     results := results w;
     backend_fault := backend_fault w;
     entropy := entropy w;
     cursor := S (S (cursor w));
     history :=
       (history w ++ [EvEnqueue msg]) ++
       [EvSet (_submitted_key (message_id msg)) (Byte.x31 :: nil) ttl] |}.

(** The world a worker leaves when the actor returns [counts]. *)
Definition world_after_success (m : Message) (counts : list (string * Z)) (w : World) : World :=
  let key := "task_submitted:" +:+ kwargs_task_id m in
  {| redis := delete key (redis w);
     queue := queue w;
     results := <[message_id m := dict_of_counts counts]> (results w);
     backend_fault := backend_fault w;
     entropy := entropy w;
     cursor := cursor w;
     history :=
       (history w ++ [EvDelete key]) ++
       [EvStoreResult (message_id m) (dict_of_counts counts)] |}.

(** The UUID behind the message id of the [i]-th of a row of accepted
    submissions that starts in [w]. *)
Definition message_draw (w : World) (i : nat) : Z :=
  UUID.uuid4_int (entropy w (cursor w + 2 * i + 1) mod 2 ^ 128)%Z.

(** ** Orderings on the history *)

Definition is_set_of (key : string) (ev : event) : bool :=
  match ev with
  | EvSet k _ _ => String.eqb k key
  | _ => false
  end.

Definition is_delete_of (key : string) (ev : event) : bool :=
  match ev with
  | EvDelete k => String.eqb k key
  | _ => false
  end.

Definition is_enqueue_of (mid : string) (ev : event) : bool :=
  match ev with
  | EvEnqueue m => String.eqb (message_id m) mid
  | _ => false
  end.

Definition is_store_of (mid : string) (ev : event) : bool :=
  match ev with
  | EvStoreResult m _ => String.eqb m mid
  | _ => false
  end.

Definition is_any_delete (ev : event) : bool :=
  match ev with
  | EvDelete _ => true
  | _ => false
  end.

Fixpoint first_index (P : event -> bool) (h : list event) : option nat :=
  match h with
  | [] => None
  | ev :: h' => if P ev then Some 0 else S <$> first_index P h'
  end.

(** Both kinds of event occur, and the first [P] comes strictly before
    the first [Q]. *)
Definition happens_before (P Q : event -> bool) (h : list event) : bool :=
  match first_index P h, first_index Q h with
  | Some i, Some j => (i <? j)%nat
  | _, _ => false
  end.

(** The canonical result shape of the specification: a mapping from
    string to non-negative integer. *)
Definition is_counts_entry (kv : PyVal * PyVal) : bool :=
  match kv with
  | (PyStr _, PyInt n) => (0 <=? n)%Z
  | _ => false
  end.

Definition is_counts_mapping (v : PyVal) : bool :=
  match v with
  | PyDict items => forallb is_counts_entry items
  | _ => false
  end.

(** A task id was submitted when a message carrying it as its message id
    was handed to the broker. *)
Definition submitted (tid : string) (w : World) : Prop :=
  exists m, In (EvEnqueue m) (history w) /\ message_id m = tid.

(** Markers, results and queued messages all stem from messages that
    were handed to the broker. *)
Definition well_formed (w : World) : Prop :=
  (forall key, is_Some (redis w !! key) ->
     exists m, In (EvEnqueue m) (history w) /\ key = _submitted_key (message_id m)) /\
  (forall mid, is_Some (results w !! mid) -> submitted mid w) /\
  (forall m, In m (queue w) -> In (EvEnqueue m) (history w)).

Section System.

Context `{Collaborators} (cfg : Settings).

(** [n] successive status queries for the same id. *)
Fixpoint after_queries (n : nat) (tid : string) (w : World) : World :=
  match n with
  | O => w
  | S n' => snd (run (task_status tid) (after_queries n' tid w))
  end.

(** Consecutive submissions, in order. *)
Fixpoint submit_all (bodies : list TaskDTO) : prog (list TaskSubmitResponse) :=
  match bodies with
  | [] => Ret []
  | body :: rest =>
      let* r := submit_task cfg body in
      let* rs := submit_all rest in
      Ret (r :: rs)
  end.

(** Requests and workers running concurrently, one primitive operation
    at a time. *)
Inductive thread : Type :=
| Submitting (p : prog TaskSubmitResponse)
| Working (p : prog unit)
| Querying (p : prog TaskStatusResponse).

Definition step_thread (t : thread) (w : World) : thread * World :=
  match t with
  | Submitting p => let '(p', w') := step1 p w in (Submitting p', w')
  | Working p => let '(p', w') := step1 p w in (Working p', w')
  | Querying p => let '(p', w') := step1 p w in (Querying p', w')
  end.

(** [sched] names, step after step, the thread that moves. *)
Fixpoint run_schedule (sched : list nat) (pool : list thread) (w : World)
  : list thread * World :=
  match sched with
  | [] => (pool, w)
  | i :: sched' =>
      match pool !! i with
      | Some t =>
          let '(t', w') := step_thread t w in
          run_schedule sched' (<[i := t']> pool) w'
      | None => run_schedule sched' pool w
      end
  end.

(** The worlds the service can be in: requests and worker steps in any
    order from an empty world, markers and results expiring, the
    backend failing and recovering, the queue redelivering a message
    it was given. *)
Inductive reachable : World -> Prop :=
| reach_init e : reachable (init_world e)
| reach_submit w body :
    reachable w -> reachable (snd (run (submit_task cfg body) w))
| reach_query w tid :
    reachable w -> reachable (snd (run (task_status tid) w))
| reach_worker w :
    reachable w -> reachable (snd (run (worker_step cfg) w))
| reach_marker_expired w key :
    reachable w -> reachable (with_redis (delete key (redis w)) w)
| reach_result_expired w mid :
    reachable w -> reachable (with_results (delete mid (results w)) w)
| reach_fault w f :
    reachable w -> reachable (with_fault f w)
| reach_redelivered w m :
    reachable w -> In (EvEnqueue m) (history w) ->
    reachable (with_queue (queue w ++ [m]) w).

End System.

(** ** Stand-ins for the collaborators, for concrete runs *)

Definition sample_loads (s : string) : exn + string :=
  if String.prefix "OPENQASM" s then inr s
  else inl (Exception "QASM3ImporterError" "parse error").

Definition sample_json_loads (s : string) : exn + PyVal :=
  if String.eqb s "{}" then inr (PyDict [])
  else if String.eqb s "[1]" then inr (PyList [PyInt 1])
  else inl (Exception "JSONDecodeError" "Expecting value").

Definition sample_collaborators : Collaborators :=
  {| Circuit := string;
     qasm3_loads := sample_loads;
     qasm3_dumps := fun c => inr c;
     simulate_counts := fun _ _ => inr [("00", 5%Z); ("11", 3%Z)];
     bytes_decode_utf8 := fun b => inr (string_of_list_byte b);
     json_loads := sample_json_loads |}.

Definition sample_entropy (n : nat) : Z := (Z.of_nat (S n) * 0x0123456789abcdef0123)%Z.

Definition sample_world : World := init_world sample_entropy.

Definition sample_body : TaskDTO := {| qc := "OPENQASM 3.0; qubit q; h q;" |}.

Definition sample_response : TaskSubmitResponse := submit_response sample_world.

Definition sample_message : Message := submitted_message (qc sample_body) sample_world.

(** The world after [sample_body] was submitted in [sample_world]. *)
Definition sample_submitted : World :=
  world_after_submit default_settings (qc sample_body) sample_world.

Definition sample_counts : list (string * Z) := [("00", 5%Z); ("11", 3%Z)].

(** ... and after a worker then completed the message. *)
Definition sample_completed : World :=
  world_after_success sample_message sample_counts
    (record (EvDequeue (Some sample_message)) (with_queue [] sample_submitted)).

(** A world whose backend is down. *)
Definition sample_faulty : World :=
  with_fault (Some (Exception "ConnectionError" "Connection refused")) sample_submitted.

(** A world in which every draw of the entropy source is the same. *)
Definition stuck_world : World := init_world (fun _ => 0%Z).

Definition thread_finished (t : thread) : bool :=
  match t with
  | Submitting p => finished p
  | Working p => finished p
  | Querying p => finished p
  end.


(** The characters [strip] keeps. *)
Definition strip_list (l : list ascii) : list ascii :=
  rev (lstrip_list (rev (lstrip_list l))).

(** ** app/settings.py: reading the environment

    [int(s)] for an ASCII [str], as CPython parses it in base 10: blanks
    ([Py_ISSPACE]) are skipped on both sides, one sign may come first,
    then digits, with single underscores allowed between two digits.
    [max_str_digits] is the interpreter's limit on the number of digits
    ([sys.get_int_max_str_digits()], 4300 by default, 0 for none); it is
    only consulted for more than 640 digits.  Every failure is a
    [ValueError]; its message, which quotes the literal, is shortened. *)

Definition Py_ISSPACE (c : ascii) : bool :=
  let n := nat_of_ascii c in
  ((9 <=? n) && (n <=? 13) || (n =? 32))%nat.

Definition Py_ISDIGIT (c : ascii) : bool :=
  let n := nat_of_ascii c in
  ((48 <=? n) && (n <=? 57))%nat.

Definition digit_value (c : ascii) : Z := Z.of_nat (nat_of_ascii c - 48).

Fixpoint skip_spaces (l : list ascii) : list ascii :=
  match l with
  | c :: l' => if Py_ISSPACE c then skip_spaces l' else l
  | [] => []
  end.

(** The digits of a literal: the value read so far, the number of digits
    read, whether the last character was an underscore; what is left
    when the scan stops at a character that is neither. *)
Fixpoint scan_digits (l : list ascii) (acc : Z) (digits : nat) (prev_us : bool)
  : option (Z * nat * list ascii) :=
  match l with
  | c :: l' =>
      if Py_ISDIGIT c
      then scan_digits l' (acc * 10 + digit_value c)%Z (S digits) false
      else if Ascii.eqb c "_"%char
           then if prev_us then None else scan_digits l' acc digits true
           else if prev_us then None else Some (acc, digits, l)
  | [] => if prev_us then None else Some (acc, digits, [])
  end.

(** The characters a literal that [int] accepts is made of, and the value
    of a row of digits read from the left. *)
Definition int_literal_char (c : ascii) : bool :=
  Py_ISDIGIT c || Py_ISSPACE c || Ascii.eqb c "_"%char ||
  Ascii.eqb c "+"%char || Ascii.eqb c "-"%char.

Definition decimal_value (ds : list ascii) : Z :=
  fold_left (fun acc c => acc * 10 + digit_value c)%Z ds 0%Z.

Definition ValueError_int : exn :=
  Exception "ValueError" "invalid literal for int() with base 10".

Definition ValueError_digits : exn :=
  Exception "ValueError" "Exceeds the limit for integer string conversion".

(** The literal after its sign. *)
Definition int_of_digits (max_str_digits : nat) (negative : bool)
    (l : list ascii) : exn + Z :=
  match l with
  | c :: _ =>
      if Ascii.eqb c "_"%char then inl ValueError_int
      else
        match scan_digits l 0 0 false with
        | Some (value, digits, rest) =>
            if (digits =? 0)%nat then inl ValueError_int
            else if (640 <? digits)%nat && (0 <? max_str_digits)%nat &&
                    (max_str_digits <? digits)%nat
            then inl ValueError_digits
            else
              match skip_spaces rest with
              | [] => inr (if negative then - value else value)%Z
              | _ :: _ => inl ValueError_int
              end
        | None => inl ValueError_int
        end
  | [] => inl ValueError_int
  end.

Definition int_of_str (max_str_digits : nat) (s : string) : exn + Z :=
  match skip_spaces (list_ascii_of_string s) with
  | c :: l' =>
      if Ascii.eqb c "+"%char then int_of_digits max_str_digits false l'
      else if Ascii.eqb c "-"%char then int_of_digits max_str_digits true l'
      else int_of_digits max_str_digits false (c :: l')
  | [] => inl ValueError_int
  end.

(** [int(x)] for what [os.getenv] returns: [None] or a [str]. *)
Definition py_int (max_str_digits : nat) (x : option string) : exn + Z :=
  match x with
  | Some s => int_of_str max_str_digits s
  | None =>
      inl (Exception "TypeError"
             "int() argument must be a string, a bytes-like object or a real number, not 'NoneType'")
  end.

Definition exn_class (e : exn) : string :=
  match e with
  | ResultMissing _ => "ResultMissing"
  | ResultTimeout _ => "ResultTimeout"
  | HTTPException _ _ => "HTTPException"
  | Exception cls _ => cls
  end.

Definition str_to_int (max_str_digits : nat) (s : option string) (default : Z)
  : exn + Z :=
  match py_int max_str_digits s with
  | inr n => inr n
  | inl e =>
      if String.eqb (exn_class e) "TypeError" || String.eqb (exn_class e) "ValueError"
      then inr default
      else inl e
  end.

(** The process environment, and the settings computed from it when the
    module is imported. *)
Section Environment.

Variable max_str_digits : nat.
Variable environ : gmap string string.

Definition getenv (name : string) : option string := environ !! name.

Definition getenv_default (name default : string) : string :=
  match environ !! name with
  | Some value => value
  | None => default
  end.

Definition APP_NAME : string := getenv_default "APP_NAME" "classiq".
Definition REDIS_HOST : string := getenv_default "REDIS_HOST" "localhost".

Definition REDIS_PORT : exn + Z :=
  str_to_int max_str_digits (getenv "REDIS_PORT") 6379.
Definition REDIS_DB : exn + Z :=
  str_to_int max_str_digits (getenv "REDIS_DB") 0.
Definition REDIS_RESULT_TTL : exn + Z :=
  str_to_int max_str_digits (getenv "REDIS_RESULT_TTL") 3600.
Definition BROKER_TIME_LIMIT_MS : exn + Z :=
  str_to_int max_str_digits (getenv "BROKER_TIME_LIMIT_MS") 120000.
Definition BROKER_MAX_RETRIES : exn + Z :=
  str_to_int max_str_digits (getenv "BROKER_MAX_RETRIES") 3.

(** The three settings the routes and the actor import. *)
Definition qc_settings : exn + Settings :=
  match str_to_int max_str_digits (getenv "QC_TASK_TIME_LIMIT_MS") 300000 with
  | inl e => inl e
  | inr limit =>
      match str_to_int max_str_digits (getenv "QC_TASK_MAX_RETRIES") 3 with
      | inl e => inl e
      | inr retries =>
          match str_to_int max_str_digits (getenv "QC_TASK_DEFAULT_SHOTS") 1024 with
          | inl e => inl e
          | inr shots =>
              inr {| QC_TASK_TIME_LIMIT_MS := limit;
                     QC_TASK_MAX_RETRIES := retries;
                     QC_TASK_DEFAULT_SHOTS := shots |}
          end
      end
  end.

(** [str(os.getenv("API_HOST")).strip() or "0.0.0.0"]: [str(None)] is
    the text [None]. *)
Definition py_str_of_optional (x : option string) : string :=
  match x with
  | Some s => s
  | None => "None"
  end.

Definition API_HOST : string :=
  let host := strip (py_str_of_optional (getenv "API_HOST")) in
  if str_truthy host then host else "0.0.0.0".

Definition API_PORT : exn + Z :=
  str_to_int max_str_digits (getenv "API_PORT") 8000.

End Environment.

(** ** app/queue.py: the expiry given to the results middleware *)

Definition result_ttl_ms (REDIS_RESULT_TTL : Z) : Z :=
  (if 0 <? REDIS_RESULT_TTL then REDIS_RESULT_TTL * 1000 else 0)%Z.

(** ** app/logger.py

    The logger object [logging.getLogger(name)] answers with is taken as
    it is found: its level and the handlers attached to it. *)

Definition logging_DEBUG : Z := 10.
Definition logging_INFO : Z := 20.

Inductive Handler : Type :=
| StreamHandler_stdout (level : Z) (fmt datefmt : string)
| RichHandler (level : Z)
    (rich_tracebacks markup show_time show_level show_path : bool)
| OtherHandler (description : string).

Record Logger : Type := {
  logger_name : string;
  logger_level : Z;
  logger_handlers : list Handler
}.

Definition handler_level (h : Handler) : option Z :=
  match h with
  | StreamHandler_stdout level _ _ => Some level
  | RichHandler level _ _ _ _ _ => Some level
  | OtherHandler _ => None
  end.

(** [str.lower] on ASCII text. *)
Definition ascii_lower (c : ascii) : ascii :=
  let n := nat_of_ascii c in
  if ((65 <=? n) && (n <=? 90))%nat then ascii_of_nat (n + 32) else c.

Fixpoint lower (s : string) : string :=
  match s with
  | EmptyString => EmptyString
  | String c s' => String (ascii_lower c) (lower s')
  end.

Definition quoted (s : string) : string :=
  String (ascii_of_nat 34) s +:+ String (ascii_of_nat 34) EmptyString.

Definition json_log_format : string :=
  "{" +:+ quoted "time" +:+ ": " +:+ quoted "%(asctime)s" +:+ ", " +:+
  quoted "level" +:+ ": " +:+ quoted "%(levelname)s" +:+ ", " +:+
  quoted "name" +:+ ": " +:+ quoted "%(name)s" +:+ ", " +:+
  quoted "message" +:+ ": " +:+ quoted "%(message)s" +:+ "}".

Definition plain_log_format : string :=
  "%(asctime)s - %(name)s - %(levelname)s - %(message)s".

Definition log_datefmt : string := "%Y-%m-%d %H:%M:%S".

(** [setup_logger], on the logger found under the name: [ENVIRONMENT] is
    what [os.getenv("ENVIRONMENT")] gives, [RICH_AVAILABLE] whether the
    import of [rich] succeeded. *)
Definition setup_logger (ENVIRONMENT : option string) (RICH_AVAILABLE : bool)
    (logger_instance : Logger) : Logger :=
  match logger_handlers logger_instance with
  | _ :: _ => logger_instance
  | [] =>
      let env :=
        lower match ENVIRONMENT with
              | Some value => value
              | None => "development"
              end in
      let log_level :=
        if String.eqb env "production" then logging_INFO else logging_DEBUG in
      let handler :=
        if String.eqb env "production"
        then StreamHandler_stdout log_level json_log_format log_datefmt
        else if RICH_AVAILABLE
             then RichHandler log_level true true true true true
             else StreamHandler_stdout log_level plain_log_format log_datefmt in
      {| logger_name := logger_name logger_instance;
         logger_level := log_level;
         logger_handlers := logger_handlers logger_instance ++ [handler] |}
  end.

(** ** Where messages and markers come from *)

(** A message as [submit_task] builds it: its id is the [str] of a UUID,
    its [task_id] argument the [hex] of one. *)
Definition built_by_submit (m : Message) : Prop :=
  exists u1 u2,
    kwargs_task_id m = UUID.hex u1 /\ message_id m = UUID.str u2.

(** Every message handed to the broker was built by [submit_task]; every
    marker has the value and the expiry [submit_task] writes; every
    stored result is the [dict] of some counts. *)
Definition provenance (cfg : Settings) (w : World) : Prop :=
  (forall m, In (EvEnqueue m) (history w) -> built_by_submit m) /\
  (forall key value px, redis w !! key = Some (value, px) ->
     value = Byte.x31 :: nil /\
     px = (QC_TASK_TIME_LIMIT_MS cfg * QC_TASK_MAX_RETRIES cfg)%Z) /\
  (forall mid v, results w !! mid = Some v ->
     exists counts, v = dict_of_counts counts).

(** The three stages of a status query on a task whose result
    normalises to the dict [r]: not started; result in hand and marker
    still to delete; answered. *)
Definition awaiting_delete (tid : string) (r : PyVal) : prog TaskStatusResponse :=
  Do (redis_delete (_submitted_key tid)) (fun _ => Ret (Completed r)).

Definition query_stage `{Collaborators} (tid : string) (r : PyVal)
    (t : thread) : Prop :=
  match t with
  | Querying p =>
      p = task_status tid \/ p = awaiting_delete tid r \/ p = Ret (Completed r)
  | _ => False
  end.
(** * Properties *)

(** ** Strings and identifiers *)

(** Identifiers are rendered only when a concrete run is evaluated. *)
#[local] Arguments UUID.hex : simpl never.
#[local] Arguments UUID.str : simpl never.
#[local] Arguments UUID.uuid4_int : simpl never.
#[local] Arguments strip : simpl never.

Lemma length_append (s t : string) :
  String.length (s +:+ t) = String.length s + String.length t.
Proof. induction s as [|c s IH]; simpl; [reflexivity | now rewrite IH]. Qed.

Lemma list_ascii_of_string_append (s t : string) :
  list_ascii_of_string (s +:+ t) =
  (list_ascii_of_string s ++ list_ascii_of_string t)%list.
Proof. induction s as [|c s IH]; simpl; [reflexivity | now rewrite IH]. Qed.

Lemma append_snoc_inj (s t : string) (c d : ascii) :
  s +:+ String c EmptyString = t +:+ String d EmptyString -> s = t /\ c = d.
Proof.
  revert t. induction s as [|a s IH]; intros [|b t] Heq; simpl in Heq.
  - injection Heq as ->. auto.
  - injection Heq as -> Heq. destruct t; discriminate.
  - injection Heq as -> Heq. destruct s; discriminate.
  - injection Heq as -> Heq. destruct (IH _ Heq) as [-> ->]. auto.
Qed.

Lemma hex_fixed_length (n : nat) (z : Z) :
  String.length (UUID.hex_fixed n z) = n.
Proof.
  revert z. induction n as [|n IH]; intros z; simpl; [reflexivity|].
  rewrite length_append, IH. simpl. lia.
Qed.

Lemma hexdigit_lower_hex (d : Z) :
  (0 <= d < 16)%Z -> UUID.is_lower_hex (UUID.hexdigit d) = true.
Proof.
  intros Hd.
  assert (Hc : (d = 0 \/ d = 1 \/ d = 2 \/ d = 3 \/ d = 4 \/ d = 5 \/ d = 6 \/
                d = 7 \/ d = 8 \/ d = 9 \/ d = 10 \/ d = 11 \/ d = 12 \/
                d = 13 \/ d = 14 \/ d = 15)%Z) by lia.
  repeat destruct Hc as [-> | Hc]; try subst d; reflexivity.
Qed.

Lemma hexdigit_inj (a b : Z) :
  (0 <= a < 16)%Z -> (0 <= b < 16)%Z ->
  UUID.hexdigit a = UUID.hexdigit b -> a = b.
Proof.
  intros Ha Hb.
  assert (Hca : (a = 0 \/ a = 1 \/ a = 2 \/ a = 3 \/ a = 4 \/ a = 5 \/ a = 6 \/
                 a = 7 \/ a = 8 \/ a = 9 \/ a = 10 \/ a = 11 \/ a = 12 \/
                 a = 13 \/ a = 14 \/ a = 15)%Z) by lia.
  assert (Hcb : (b = 0 \/ b = 1 \/ b = 2 \/ b = 3 \/ b = 4 \/ b = 5 \/ b = 6 \/
                 b = 7 \/ b = 8 \/ b = 9 \/ b = 10 \/ b = 11 \/ b = 12 \/
                 b = 13 \/ b = 14 \/ b = 15)%Z) by lia.
  clear Ha Hb.
  repeat destruct Hca as [-> | Hca]; try subst a;
    repeat destruct Hcb as [-> | Hcb]; try subst b;
    intros Heq; first [reflexivity | discriminate Heq].
Qed.

Lemma hex_fixed_lower_hex (n : nat) (z : Z) :
  forallb UUID.is_lower_hex (list_ascii_of_string (UUID.hex_fixed n z)) = true.
Proof.
  revert z. induction n as [|n IH]; intros z; simpl; [reflexivity|].
  rewrite list_ascii_of_string_append, forallb_app, IH. simpl.
  rewrite hexdigit_lower_hex; [reflexivity|].
  apply Z.mod_pos_bound. lia.
Qed.

Lemma hex_fixed_inj (n : nat) (a b : Z) :
  (0 <= a < 16 ^ Z.of_nat n)%Z -> (0 <= b < 16 ^ Z.of_nat n)%Z ->
  UUID.hex_fixed n a = UUID.hex_fixed n b -> a = b.
Proof.
  revert a b. induction n as [|n IH]; intros a b Ha Hb Heq.
  - simpl in Ha, Hb. lia.
  - simpl in Heq. apply append_snoc_inj in Heq as [Hhi Hlo].
    rewrite Nat2Z.inj_succ, Z.pow_succ_r in Ha, Hb by lia.
    apply hexdigit_inj in Hlo; try (apply Z.mod_pos_bound; lia).
    apply IH in Hhi.
    + rewrite (Z.div_mod a 16), (Z.div_mod b 16) by lia. congruence.
    + split; [apply Z.div_pos; lia | apply Z.div_lt_upper_bound; lia].
    + split; [apply Z.div_pos; lia | apply Z.div_lt_upper_bound; lia].
Qed.

Lemma Z_bits_above (z n i : Z) :
  (0 <= z < 2 ^ n)%Z -> (n <= i)%Z -> Z.testbit z i = false.
Proof.
  intros [Hz Hlt] Hi.
  destruct (Z.eq_dec z 0%Z) as [-> | Hnz]; [apply Z.bits_0|].
  apply Z.bits_above_log2; [assumption|].
  assert (Z.log2 z < n)%Z by (apply Z.log2_lt_pow2; lia). lia.
Qed.

Lemma Z_below_pow2 (z n : Z) :
  (0 <= n)%Z -> (0 <= z)%Z ->
  (forall i, (n <= i)%Z -> Z.testbit z i = false) ->
  (z < 2 ^ n)%Z.
Proof.
  intros Hn Hz Hbits.
  destruct (Z.lt_ge_cases z (2 ^ n)) as [Hlt | Hge]; [assumption|].
  assert (Hpos : (0 < z)%Z) by (pose proof (Z.pow_pos_nonneg 2 n); lia).
  assert (Hlog : (n <= Z.log2 z)%Z) by (apply Z.log2_le_pow2; assumption).
  specialize (Hbits _ Hlog). rewrite Z.bit_log2 in Hbits by assumption.
  discriminate.
Qed.

Lemma uuid4_int_range (r : Z) :
  (0 <= r < 2 ^ 128)%Z -> (0 <= UUID.uuid4_int r < 2 ^ 128)%Z.
Proof.
  intros Hr. unfold UUID.uuid4_int.
  assert (Hnn : (0 <= Z.lor (Z.land (Z.lor (Z.land r (Z.lnot (Z.shiftl 49152 48)))
                     (Z.shiftl 32768 48)) (Z.lnot (Z.shiftl 61440 64)))
                     (Z.shiftl 4 76))%Z).
  { apply Z.lor_nonneg. split; [|vm_compute; discriminate].
    apply Z.land_nonneg. left.
    apply Z.lor_nonneg. split; [|vm_compute; discriminate].
    apply Z.land_nonneg. left. lia. }
  split; [exact Hnn|].
  apply Z_below_pow2; [lia | exact Hnn|].
  intros i Hi.
  rewrite Z.lor_spec, Z.land_spec, Z.lor_spec, Z.land_spec.
  rewrite (Z_bits_above r 128 i Hr Hi).
  rewrite (Z_bits_above (Z.shiftl 32768 48) 128 i) by first [exact Hi | split; [vm_compute; discriminate | vm_compute; reflexivity]].
  rewrite (Z_bits_above (Z.shiftl 4 76) 128 i) by first [exact Hi | split; [vm_compute; discriminate | vm_compute; reflexivity]].
  reflexivity.
Qed.

(** A string of known length is the list of its characters. *)
Ltac explode_string h Hlen :=
  repeat (destruct h as [|? h]; [discriminate Hlen|]);
  destruct h; [|discriminate Hlen].

Lemma dashed_length (h : string) :
  String.length h = 32 -> String.length (UUID.dashed h) = 36.
Proof. intros Hlen. explode_string h Hlen. reflexivity. Qed.

Lemma dashed_inj (h1 h2 : string) :
  String.length h1 = 32 -> String.length h2 = 32 ->
  UUID.dashed h1 = UUID.dashed h2 -> h1 = h2.
Proof.
  intros H1 H2. explode_string h1 H1. explode_string h2 H2.
  cbv. intros Heq. injection Heq. intros. subst. reflexivity.
Qed.

Lemma uuid_hex_matches_HEX_RE (u : Z) : UUID.HEX_RE_match (UUID.hex u) = true.
Proof.
  unfold UUID.HEX_RE_match, UUID.hex.
  rewrite hex_fixed_length, hex_fixed_lower_hex. reflexivity.
Qed.

Lemma uuid_str_length (u : Z) : String.length (UUID.str u) = 36.
Proof. apply dashed_length, hex_fixed_length. Qed.

Lemma uuid_str_inj (a b : Z) :
  (0 <= a < 2 ^ 128)%Z -> (0 <= b < 2 ^ 128)%Z ->
  UUID.str a = UUID.str b -> a = b.
Proof.
  intros Ha Hb Heq. unfold UUID.str in Heq.
  apply dashed_inj in Heq; try apply hex_fixed_length.
  apply (hex_fixed_inj 32); assumption.
Qed.

Lemma uuid_hex_ne_str (a b : Z) : UUID.hex a <> UUID.str b.
Proof.
  intros Heq. apply (f_equal String.length) in Heq.
  unfold UUID.hex in Heq. rewrite hex_fixed_length, uuid_str_length in Heq.
  discriminate.
Qed.

Lemma uuid_str_not_HEX_RE (u : Z) : UUID.HEX_RE_match (UUID.str u) = false.
Proof. unfold UUID.HEX_RE_match. rewrite uuid_str_length. reflexivity. Qed.

(** ** Running programs *)

Lemma run_bind {A B : Type} (m : prog A) (f : A -> prog B) (w : World) :
  run (bind m f) w =
  match run m w with
  | (inl e, w') => (inl e, w')
  | (inr a, w') => run (f a) w'
  end.
Proof.
  revert w. induction m as [a | e | X o k IH]; intros w; simpl; try reflexivity.
  destruct (exec_op o w) as [x w1]. apply IH.
Qed.

Lemma run_try_except {A : Type} (m : prog A) (h : exn -> prog A) (w : World) :
  run (try_except m h) w =
  match run m w with
  | (inl e, w') => run (h e) w'
  | (inr a, w') => (inr a, w')
  end.
Proof.
  revert w. induction m as [a | e | X o k IH]; intros w; simpl; try reflexivity.
  destruct (exec_op o w) as [x w1]. apply IH.
Qed.

Lemma run_step1 {A : Type} (m : prog A) (w : World) :
  run m w = run (fst (step1 m w)) (snd (step1 m w)).
Proof.
  destruct m as [a | e | X o k]; simpl; try reflexivity.
  destruct (exec_op o w) as [x w1]. reflexivity.
Qed.

Lemma happens_before_pair (P Q : event -> bool) (a b : event) :
  P a = true -> Q a = false -> Q b = true ->
  happens_before P Q [a; b] = true.
Proof.
  intros HPa HQa HQb. unfold happens_before, first_index.
  rewrite HPa, HQa, HQb. reflexivity.
Qed.

Section SubmitFacts.

Context `{Collaborators} (cfg : Settings).

Lemma submit_task_accepted (body : TaskDTO) (w w' : World) (r : TaskSubmitResponse) :
  run (submit_task cfg body) w = (inr r, w') ->
  exists circuit dumped,
    qasm3_loads (strip (qc body)) = inr circuit /\
    qasm3_dumps circuit = inr dumped /\
    r = submit_response w /\
    w' = world_after_submit cfg dumped w.
Proof.
  unfold submit_task. simpl.
  destruct (negb (str_truthy (qc body)) || negb (str_truthy (strip (qc body))));
    simpl; [discriminate|].
  destruct (qasm3_loads (strip (qc body))) as [e | circuit] eqn:Hloads; simpl;
    [discriminate|].
  destruct (qasm3_dumps circuit) as [e | dumped] eqn:Hdumps; simpl;
    [discriminate|].
  intros Heq. injection Heq as <- <-.
  exists circuit, dumped. repeat split; assumption || reflexivity.
Qed.

Lemma submit_task_raises (body : TaskDTO) (w w' : World) (e : exn) :
  run (submit_task cfg body) w = (inl e, w') -> w' = advance w.
Proof.
  unfold submit_task. simpl.
  destruct (negb (str_truthy (qc body)) || negb (str_truthy (strip (qc body))));
    simpl; [congruence|].
  destruct (qasm3_loads (strip (qc body))) as [e' | circuit]; simpl; [congruence|].
  destruct (qasm3_dumps circuit) as [e' | dumped]; simpl; [congruence|].
  discriminate.
Qed.

End SubmitFacts.

Section SubmitClaims.

Context `{Collaborators} (cfg : Settings).

Lemma submit_task_accepts (body : TaskDTO) (w : World) (circuit : Circuit) (dumped : string) :
  str_truthy (qc body) = true ->
  str_truthy (strip (qc body)) = true ->
  qasm3_loads (strip (qc body)) = inr circuit ->
  qasm3_dumps circuit = inr dumped ->
  run (submit_task cfg body) w = (inr (submit_response w), world_after_submit cfg dumped w).
Proof.
  intros Hqc Hstrip Hloads Hdumps. unfold submit_task. simpl.
  rewrite Hqc, Hstrip. simpl. rewrite Hloads. simpl. rewrite Hdumps.
  reflexivity.
Qed.

(** C7.  A body that is empty, blank, or refused by the QASM3 parser is
    answered with a 400 [HTTPException]; the store, the queue, the
    result backend and the history are what they were: no marker was
    written and nothing was enqueued. *)
Theorem rejected_submission_leaves_no_trace (body : TaskDTO) (w : World) :
  (str_truthy (qc body) = false \/
   str_truthy (strip (qc body)) = false \/
   exists e, qasm3_loads (strip (qc body)) = inl e) ->
  exists detail w',
    run (submit_task cfg body) w = (inl (HTTPException 400 detail), w') /\
    redis w' = redis w /\ queue w' = queue w /\
    results w' = results w /\ history w' = history w.
Proof.
  intros Hbad. unfold submit_task. simpl.
  destruct (negb (str_truthy (qc body)) || negb (str_truthy (strip (qc body))))
    eqn:Hempty; simpl.
  - eexists _, _. split; [reflexivity|]. repeat split.
  - apply orb_false_iff in Hempty as [Hqc Hstrip].
    apply negb_false_iff in Hqc, Hstrip.
    destruct Hbad as [Hbad | [Hbad | [e Hbad]]]; try congruence.
    rewrite Hbad. simpl.
    eexists _, _. split; [reflexivity|]. repeat split.
Qed.

(** C9.  The marker of an accepted submission is stored with expiry
    [max_retries * time_limit], the two options the actor is declared
    with, both read from the settings. *)
Theorem marker_ttl_from_actor_options
    (body : TaskDTO) (w w' : World) (r : TaskSubmitResponse) :
  run (submit_task cfg body) w = (inr r, w') ->
  let ttl := (max_retries (qasm3_task_options cfg) *
              time_limit (qasm3_task_options cfg))%Z in
  redis w' !! _submitted_key (task_id r) = Some (Byte.x31 :: nil, ttl) /\
  last (history w') = Some (EvSet (_submitted_key (task_id r)) (Byte.x31 :: nil) ttl) /\
  max_retries (qasm3_task_options cfg) = QC_TASK_MAX_RETRIES cfg /\
  time_limit (qasm3_task_options cfg) = QC_TASK_TIME_LIMIT_MS cfg.
Proof.
  intros Hrun ttl.
  apply submit_task_accepted in Hrun as (circuit & dumped & _ & _ & -> & ->).
  subst ttl. simpl. rewrite (Z.mul_comm (QC_TASK_MAX_RETRIES cfg)).
  split; [apply lookup_insert_eq|].
  split; [apply last_snoc|]. split; reflexivity.
Qed.

(** C10.  After an accepted submission the id returned, the marker key
    and the message id are one and the same broker id, the [str] of a
    UUID drawn for the message; the [task_id] keyword argument inside
    the message is the [hex] of another UUID, drawn before, and is never
    that broker id, so the key a worker builds from it is not the
    marker's key. *)
Theorem returned_id_is_message_id_not_task_id
    (body : TaskDTO) (w w' : World) (r : TaskSubmitResponse) :
  run (submit_task cfg body) w = (inr r, w') ->
  exists msg,
    queue w' = queue w ++ [msg] /\
    In (EvEnqueue msg) (history w') /\
    task_id r = message_id msg /\
    is_Some (redis w' !! _submitted_key (message_id msg)) /\
    message_id msg = UUID.str (UUID.uuid4_int (second_draw w)) /\
    kwargs_task_id msg = UUID.hex (UUID.uuid4_int (first_draw w)) /\
    kwargs_task_id msg <> message_id msg /\
    "task_submitted:" +:+ kwargs_task_id msg <> _submitted_key (message_id msg).
Proof.
  intros Hrun.
  apply submit_task_accepted in Hrun as (circuit & dumped & _ & _ & -> & ->).
  exists (submitted_message dumped w). simpl.
  split; [reflexivity|].
  split; [apply in_or_app; left; apply in_or_app; right; left; reflexivity|].
  split; [reflexivity|].
  split; [rewrite lookup_insert_eq; eauto|].
  split; [reflexivity|]. split; [reflexivity|].
  split; [apply uuid_hex_ne_str|].
  unfold _submitted_key, _SUBMITTED_PREFIX. intros Heq.
  apply String.app_inj in Heq. revert Heq. apply uuid_hex_ne_str.
Qed.

(** C1, as the code has it.  An accepted submission first hands the
    message to the broker and then writes the marker, both before it
    returns: its two effects on the collaborators are, in this order,
    the enqueue and the marker write, and the marker is in the store
    when the id is returned. *)
Theorem marker_written_after_enqueue_before_return
    (body : TaskDTO) (w w' : World) (r : TaskSubmitResponse) :
  run (submit_task cfg body) w = (inr r, w') ->
  exists msg ttl,
    message_id msg = task_id r /\
    history w' =
      history w ++ [EvEnqueue msg; EvSet (_submitted_key (task_id r)) (Byte.x31 :: nil) ttl] /\
    happens_before (is_enqueue_of (task_id r))
      (is_set_of (_submitted_key (task_id r)))
      [EvEnqueue msg; EvSet (_submitted_key (task_id r)) (Byte.x31 :: nil) ttl] = true /\
    redis w' !! _submitted_key (task_id r) = Some (Byte.x31 :: nil, ttl).
Proof.
  intros Hrun.
  apply submit_task_accepted in Hrun as (circuit & dumped & _ & _ & -> & ->).
  exists (submitted_message dumped w),
    (QC_TASK_TIME_LIMIT_MS cfg * QC_TASK_MAX_RETRIES cfg)%Z.
  simpl. split; [reflexivity|].
  split; [now rewrite <- app_assoc|].
  split; [|apply lookup_insert_eq].
  apply happens_before_pair; [apply String.eqb_refl | reflexivity |].
  apply String.eqb_refl.
Qed.

End SubmitClaims.

(** ** Status queries *)

Section QueryFacts.

Context `{Collaborators}.

(** What [task_status] answers and what it leaves, by cases on what
    the backend gave. *)
Lemma task_status_run (tid : string) (w : World) :
  run (task_status tid) w =
  let w1 := record (EvGetResult tid) w in
  let key := _submitted_key tid in
  match get_result_outcome w tid with
  | inr v =>
      match decode_result v with
      | inl response => (inr response, w1)
      | inr result =>
          if is_dict result
          then (inr (Completed result),
                record (EvDelete key) (with_redis (delete key (redis w)) w1))
          else (inr FormatInvalid, w1)
      end
  | inl (ResultMissing _) | inl (ResultTimeout _) =>
      (inr match redis w !! key with
           | Some _ => StillPending
           | None => NotFound
           end,
       record (EvGet key) w1)
  | inl e => (inr (Error (exn_str e)), w1)
  end.
Proof.
  unfold task_status. simpl.
  destruct (get_result_outcome w tid) as [e | v]; simpl.
  - destruct e; simpl; try reflexivity;
      destruct (redis w !! _submitted_key tid); reflexivity.
  - destruct (decode_result v) as [response | result]; simpl; [reflexivity|].
    destruct (is_dict result); reflexivity.
Qed.

(** C8.  When retrieval raises anything but [ResultMissing] and
    [ResultTimeout], [task_status] returns (it does not raise) the
    error status carrying [str(e)], and the store is untouched. *)
Theorem other_backend_error_is_structured (tid : string) (w : World) (e : exn) :
  get_result_outcome w tid = inl e ->
  (forall msg, e <> ResultMissing msg) ->
  (forall msg, e <> ResultTimeout msg) ->
  fst (run (task_status tid) w) = inr (Error (exn_str e)) /\
  redis (snd (run (task_status tid) w)) = redis w /\
  first_index is_any_delete
    (drop (length (history w)) (history (snd (run (task_status tid) w)))) = None.
Proof.
  intros Hout Hmiss Htime. rewrite task_status_run, Hout.
  destruct e as [msg | msg | status detail | cls msg];
    try (exfalso; eapply Hmiss; reflexivity);
    try (exfalso; eapply Htime; reflexivity);
    simpl; (split; [reflexivity|]); (split; [reflexivity|]);
    rewrite drop_app_length; reflexivity.
Qed.

End QueryFacts.

Section QueryClaims.

Context `{Collaborators}.

Lemma decode_result_inl (v : PyVal) (response : TaskStatusResponse) :
  decode_result v = inl response -> response = FormatInvalid.
Proof.
  unfold decode_result. destruct (is_bytes_like v) as [b|]; [|discriminate].
  destruct (bytes_decode_utf8 b) as [e | text]; [congruence|].
  destruct (json_loads text) as [e | r]; congruence.
Qed.

(** A query never touches the result backend, the fault or the queue. *)
Lemma task_status_backend (tid : string) (w : World) :
  results (snd (run (task_status tid) w)) = results w /\
  backend_fault (snd (run (task_status tid) w)) = backend_fault w /\
  queue (snd (run (task_status tid) w)) = queue w.
Proof.
  rewrite task_status_run. simpl.
  destruct (get_result_outcome w tid) as [e | v].
  - destruct e; simpl; auto.
  - destruct (decode_result v) as [response | result]; simpl; auto.
    destruct (is_dict result); simpl; auto.
Qed.

Lemma task_status_outcome_stable (tid tid' : string) (w : World) :
  get_result_outcome (snd (run (task_status tid') w)) tid =
  get_result_outcome w tid.
Proof.
  destruct (task_status_backend tid' w) as (Hres & Hfault & _).
  unfold get_result_outcome. now rewrite Hres, Hfault.
Qed.

Lemma after_queries_outcome (n : nat) (tid : string) (w : World) :
  get_result_outcome (after_queries n tid w) tid = get_result_outcome w tid.
Proof.
  induction n as [|n IH]; cbn [after_queries]; [reflexivity|].
  now rewrite task_status_outcome_stable.
Qed.

(** C5.  With a result in the backend that normalises to a dict, every
    query in a row answers the same [Completed] value, the first as
    the later ones, whether the marker is still there or already
    gone; once one query has run the marker is absent. *)
Theorem completed_query_idempotent
    (tid : string) (w : World) (v : PyVal) (items : list (PyVal * PyVal)) :
  get_result_outcome w tid = inr v ->
  decode_result v = inr (PyDict items) ->
  forall n,
    fst (run (task_status tid) (after_queries n tid w)) =
      inr (Completed (PyDict items)) /\
    redis (after_queries (S n) tid w) !! _submitted_key tid = None /\
    results (after_queries (S n) tid w) = results w.
Proof.
  intros Hout Hdec n.
  assert (Hstep : forall w0, get_result_outcome w0 tid = inr v ->
            run (task_status tid) w0 =
            (inr (Completed (PyDict items)),
             record (EvDelete (_submitted_key tid))
               (with_redis (delete (_submitted_key tid) (redis w0))
                  (record (EvGetResult tid) w0)))).
  { intros w0 Hw0. rewrite task_status_run, Hw0. simpl. rewrite Hdec.
    reflexivity. }
  split; [|split].
  - rewrite Hstep; [reflexivity|]. now rewrite after_queries_outcome.
  - cbn [after_queries]. rewrite Hstep by now rewrite after_queries_outcome.
    simpl. apply lookup_delete_eq.
  - induction n as [|n IH].
    + cbn [after_queries]. apply task_status_backend.
    + change (after_queries (S (S n)) tid w)
        with (snd (run (task_status tid) (after_queries (S n) tid w))).
      destruct (task_status_backend tid (after_queries (S n) tid w)) as [-> _].
      exact IH.
Qed.

(** C6, as the code has it.  A retrieved value is answered with
    [Completed] exactly when, after bytes are decoded and parsed, it is
    a dict (whatever its keys and values), and then the answer carries
    that dict; every other value, a list or a scalar say, is answered
    with the format error. *)
Theorem completed_exactly_for_dicts (tid : string) (w : World) (v : PyVal) :
  get_result_outcome w tid = inr v ->
  match decode_result v with
  | inr (PyDict items) =>
      fst (run (task_status tid) w) = inr (Completed (PyDict items))
  | _ => fst (run (task_status tid) w) = inr FormatInvalid
  end.
Proof.
  intros Hout. rewrite task_status_run, Hout. simpl.
  destruct (decode_result v) as [response | result] eqn:Hdec.
  - apply decode_result_inl in Hdec as ->. reflexivity.
  - destruct result; reflexivity.
Qed.

End QueryClaims.

(** ** The worker *)

Section WorkerFacts.

Context `{Collaborators} (cfg : Settings).

Lemma process_message_run (m : Message) (w : World) :
  run (process_message cfg m) w =
  match qasm3_loads (kwargs_qasm3_str m) with
  | inl e => (inl e, w)
  | inr circuit =>
      match simulate_counts circuit (QC_TASK_DEFAULT_SHOTS cfg) with
      | inl e => (inl e, w)
      | inr counts => (inr tt, world_after_success m counts w)
      end
  end.
Proof.
  unfold process_message, qasm3_task. simpl.
  destruct (qasm3_loads (kwargs_qasm3_str m)) as [e | circuit]; simpl;
    [reflexivity|].
  destruct (simulate_counts circuit (QC_TASK_DEFAULT_SHOTS cfg)) as [e | counts];
    reflexivity.
Qed.

Lemma worker_step_run (w : World) :
  run (worker_step cfg) w =
  match queue w with
  | [] => (inr tt, record (EvDequeue None) w)
  | m :: q =>
      run (process_message cfg m) (record (EvDequeue (Some m)) (with_queue q w))
  end.
Proof.
  unfold worker_step. simpl. destruct (queue w) as [|m q]; reflexivity.
Qed.

(** When a worker completes a message, the actor body issues its
    delete of a [task_submitted:] key before it returns, and the result
    is stored under the message id only after it has returned: the two
    effects are, in this order, the delete and the result write. *)
Lemma worker_deletes_before_result_is_stored (m : Message) (w w' : World) :
  run (process_message cfg m) w = (inr tt, w') ->
  exists counts,
    history w' =
      history w ++
        [EvDelete ("task_submitted:" +:+ kwargs_task_id m);
         EvStoreResult (message_id m) (dict_of_counts counts)] /\
    happens_before is_any_delete (is_store_of (message_id m))
      [EvDelete ("task_submitted:" +:+ kwargs_task_id m);
       EvStoreResult (message_id m) (dict_of_counts counts)] = true /\
    results w' !! message_id m = Some (dict_of_counts counts).
Proof.
  rewrite process_message_run.
  destruct (qasm3_loads (kwargs_qasm3_str m)) as [e | circuit]; [discriminate|].
  destruct (simulate_counts circuit (QC_TASK_DEFAULT_SHOTS cfg)) as [e | counts];
    [discriminate|].
  intros Heq. injection Heq as <-. exists counts. simpl.
  split; [now rewrite <- app_assoc|].
  split; [|apply lookup_insert_eq].
  apply happens_before_pair; [reflexivity | reflexivity | apply String.eqb_refl].
Qed.

End WorkerFacts.

(** ** Reachable worlds *)

Section Reachability.

Context `{Collaborators} (cfg : Settings).

Lemma well_formed_shrink (w w' : World) (suffix : list event) :
  well_formed w ->
  history w' = history w ++ suffix ->
  (forall key, is_Some (redis w' !! key) -> is_Some (redis w !! key)) ->
  (forall mid, is_Some (results w' !! mid) -> is_Some (results w !! mid)) ->
  (forall m, In m (queue w') -> In m (queue w)) ->
  well_formed w'.
Proof.
  intros (Hredis & Hresults & Hqueue) Hhist Hr Hres Hq.
  split; [|split].
  - intros key Hkey. destruct (Hredis key (Hr key Hkey)) as (m & Hin & ->).
    exists m. rewrite Hhist. split; [apply in_or_app; auto | reflexivity].
  - intros mid Hmid. destruct (Hresults mid (Hres mid Hmid)) as (m & Hin & <-).
    exists m. rewrite Hhist. split; [apply in_or_app; auto | reflexivity].
  - intros m Hm. rewrite Hhist. apply in_or_app. left. apply Hqueue, Hq, Hm.
Qed.

Lemma is_Some_delete {V : Type} (m : gmap string V) (k k' : string) :
  is_Some (delete k m !! k') -> is_Some (m !! k').
Proof.
  destruct (decide (k = k')) as [-> | Hne].
  - rewrite lookup_delete_eq. intros [x Hx]. discriminate.
  - now rewrite lookup_delete_ne.
Qed.

Lemma well_formed_submit (body : TaskDTO) (w : World) :
  well_formed w -> well_formed (snd (run (submit_task cfg body) w)).
Proof.
  intros Hwf.
  destruct (run (submit_task cfg body) w) as [[e | r] w'] eqn:Hrun.
  - (* refused, or the printer raised: only the entropy cursor moved *)
    apply submit_task_raises in Hrun as ->.
    apply (well_formed_shrink w _ []); simpl; rewrite ?app_nil_r; auto.
  - apply submit_task_accepted in Hrun as (circuit & dumped & _ & _ & _ & ->).
    destruct Hwf as (Hredis & Hresults & Hqueue). simpl.
    split; [|split]; simpl.
    + intros key Hkey.
      destruct (decide (_submitted_key (UUID.str (UUID.uuid4_int (second_draw w))) = key))
        as [<- | Hne].
      * exists (submitted_message dumped w). split; [|reflexivity].
        apply in_or_app. left. apply in_or_app. right. left. reflexivity.
      * rewrite lookup_insert_ne in Hkey by assumption.
        destruct (Hredis key Hkey) as (m & Hin & ->).
        exists m. split; [|reflexivity].
        apply in_or_app. left. apply in_or_app. left. assumption.
    + intros mid Hmid. destruct (Hresults mid Hmid) as (m & Hin & <-).
      exists m. split; [|reflexivity]. simpl.
      apply in_or_app. left. apply in_or_app. left. assumption.
    + intros m Hm. apply in_app_or in Hm as [Hm | [<- | []]].
      * apply in_or_app. left. apply in_or_app. left. apply Hqueue, Hm.
      * apply in_or_app. left. apply in_or_app. right. left. reflexivity.
Qed.

Lemma well_formed_query (tid : string) (w : World) :
  well_formed w -> well_formed (snd (run (task_status tid) w)).
Proof.
  intros Hwf. rewrite task_status_run. simpl.
  destruct (get_result_outcome w tid) as [e | v].
  - destruct e; simpl;
      first [ apply (well_formed_shrink w _ [EvGetResult tid; EvGet (_submitted_key tid)]);
              simpl; rewrite <- ?app_assoc; auto; fail
            | apply (well_formed_shrink w _ [EvGetResult tid]); simpl; auto ].
  - destruct (decode_result v) as [response | result]; simpl;
      [apply (well_formed_shrink w _ [EvGetResult tid]); simpl; auto|].
    destruct (is_dict result); simpl.
    + apply (well_formed_shrink w _ [EvGetResult tid; EvDelete (_submitted_key tid)]);
        simpl; rewrite <- ?app_assoc; auto.
      intros key. apply is_Some_delete.
    + apply (well_formed_shrink w _ [EvGetResult tid]); simpl; auto.
Qed.

Lemma well_formed_worker (w : World) :
  well_formed w -> well_formed (snd (run (worker_step cfg) w)).
Proof.
  intros Hwf. rewrite worker_step_run.
  destruct (queue w) as [|m q] eqn:Hq.
  - apply (well_formed_shrink w _ [EvDequeue None]); simpl; auto.
  - assert (Hwf1 : well_formed (record (EvDequeue (Some m)) (with_queue q w))).
    { apply (well_formed_shrink w _ [EvDequeue (Some m)]); simpl; auto.
      intros m' Hm'. rewrite Hq. right. assumption. }
    rewrite process_message_run.
    destruct (qasm3_loads (kwargs_qasm3_str m)) as [e | circuit]; [exact Hwf1|].
    destruct (simulate_counts circuit (QC_TASK_DEFAULT_SHOTS cfg)) as [e | counts];
      [exact Hwf1|].
    destruct Hwf as (Hredis & Hresults & Hqueue). simpl.
    assert (Hm : In (EvEnqueue m) (history w)) by (apply Hqueue; rewrite Hq; left; reflexivity).
    split; [|split]; simpl.
    + intros key Hkey. apply is_Some_delete in Hkey.
      destruct (Hredis key Hkey) as (m' & Hin & ->).
      exists m'. split; [|reflexivity].
      apply in_or_app. left. apply in_or_app. left. apply in_or_app. left. assumption.
    + intros mid Hmid. destruct (decide (message_id m = mid)) as [<- | Hne].
      * exists m. split; [|reflexivity]. simpl.
        apply in_or_app. left. apply in_or_app. left. apply in_or_app. left. assumption.
      * rewrite lookup_insert_ne in Hmid by assumption.
        destruct (Hresults mid Hmid) as (m' & Hin & <-).
        exists m'. split; [|reflexivity]. simpl.
        apply in_or_app. left. apply in_or_app. left. apply in_or_app. left. assumption.
    + intros m' Hm'.
      apply in_or_app. left. apply in_or_app. left. apply in_or_app. left.
      apply Hqueue. rewrite Hq. right. assumption.
Qed.

Lemma reachable_well_formed (w : World) : reachable cfg w -> well_formed w.
Proof.
  induction 1 as [e | w body _ IH | w tid _ IH | w _ IH | w key _ IH
                 | w mid _ IH | w f _ IH | w m _ IH Hin].
  - split; [|split]; simpl.
    + intros key [x Hx]. rewrite lookup_empty in Hx. discriminate.
    + intros mid [x Hx]. rewrite lookup_empty in Hx. discriminate.
    + intros m [].
  - now apply well_formed_submit.
  - now apply well_formed_query.
  - now apply well_formed_worker.
  - apply (well_formed_shrink w _ []); simpl; rewrite ?app_nil_r; auto.
    intros k. apply is_Some_delete.
  - apply (well_formed_shrink w _ []); simpl; rewrite ?app_nil_r; auto.
    intros k. apply is_Some_delete.
  - apply (well_formed_shrink w _ []); simpl; rewrite ?app_nil_r; auto.
  - destruct IH as (Hredis & Hresults & Hqueue).
    split; [|split]; simpl; auto.
    intros m' Hm'. apply in_app_or in Hm' as [Hm' | [<- | []]]; auto.
Qed.

(** C4.  When retrieval reports [ResultMissing] or [ResultTimeout], the
    answer is pending if the marker of the id is in the store and not
    found if it is not, the same for both reports, and the store is
    left as it was.  In a reachable world an id that was never
    submitted has neither marker nor result, so it is answered with
    not found. *)
Theorem no_result_yet_pending_or_not_found (tid : string) (w : World) (msg : string) :
  get_result_outcome w tid = inl (ResultMissing msg) \/
  get_result_outcome w tid = inl (ResultTimeout msg) ->
  fst (run (task_status tid) w) =
    inr match redis w !! _submitted_key tid with
        | Some _ => StillPending
        | None => NotFound
        end /\
  redis (snd (run (task_status tid) w)) = redis w /\
  (reachable cfg w -> ~ submitted tid w ->
     redis w !! _submitted_key tid = None /\
     results w !! tid = None /\
     fst (run (task_status tid) w) = inr NotFound).
Proof.
  intros Hout.
  assert (Hrun : run (task_status tid) w =
            (inr match redis w !! _submitted_key tid with
                 | Some _ => StillPending
                 | None => NotFound
                 end,
             record (EvGet (_submitted_key tid)) (record (EvGetResult tid) w))).
  { rewrite task_status_run. destruct Hout as [-> | ->]; reflexivity. }
  rewrite Hrun. simpl. split; [reflexivity|]. split; [reflexivity|].
  intros Hreach Hnever.
  destruct (reachable_well_formed w Hreach) as (Hredis & Hresults & _).
  assert (Hmarker : redis w !! _submitted_key tid = None).
  { destruct (redis w !! _submitted_key tid) as [x|] eqn:Hkey; [|reflexivity].
    exfalso. destruct (Hredis (_submitted_key tid)) as (m & Hin & Heq); [rewrite Hkey; eauto|].
    unfold _submitted_key in Heq. apply String.app_inj in Heq.
    apply Hnever. exists m. auto. }
  assert (Hres : results w !! tid = None).
  { destruct (results w !! tid) as [x|] eqn:Hkey; [|reflexivity].
    exfalso. apply Hnever, Hresults. rewrite Hkey. eauto. }
  rewrite Hmarker. auto.
Qed.

End Reachability.

(** ** Rows of submissions *)

Lemma NoDup_map_inj_on {A B : Type} (f : A -> B) (l : list A) :
  (forall x y, In x l -> In y l -> f x = f y -> x = y) ->
  List.NoDup l -> List.NoDup (map f l).
Proof.
  induction l as [|a l IH]; intros Hinj Hnd; simpl; [constructor|].
  apply List.NoDup_cons_iff in Hnd as [Hnotin Hnd]. apply List.NoDup_cons_iff. split.
  - intros Hin. apply in_map_iff in Hin as (x & Heq & Hx).
    apply Hinj in Heq; [subst x; contradiction | right; assumption | left; reflexivity].
  - apply IH; [|assumption].
    intros x y Hx Hy. apply Hinj; right; assumption.
Qed.

Lemma message_draw_range (w : World) (i : nat) :
  (0 <= message_draw w i < 2 ^ 128)%Z.
Proof. apply uuid4_int_range, Z.mod_pos_bound. lia. Qed.

Section SubmitRows.

Context `{Collaborators} (cfg : Settings).

Lemma submit_all_ids (bodies : list TaskDTO) (w w' : World) (rs : list TaskSubmitResponse) :
  run (submit_all cfg bodies) w = (inr rs, w') ->
  map task_id rs =
  map (fun i => UUID.str (message_draw w i)) (seq 0 (length bodies)).
Proof.
  revert w w' rs. induction bodies as [|body rest IH]; intros w w' rs Hrun.
  - simpl in Hrun. injection Hrun as <- <-. reflexivity.
  - cbn [submit_all] in Hrun. rewrite run_bind in Hrun.
    destruct (run (submit_task cfg body) w) as [[e | r] w1] eqn:Hfirst;
      [discriminate|].
    rewrite run_bind in Hrun.
    destruct (run (submit_all cfg rest) w1) as [[e | rs'] w2] eqn:Hrest;
      [discriminate|].
    simpl in Hrun. injection Hrun as <- <-.
    apply submit_task_accepted in Hfirst as (circuit & dumped & _ & _ & -> & ->).
    apply IH in Hrest. cbn [map length seq]. rewrite Hrest. f_equal.
    + unfold submit_response, message_draw, second_draw. cbn [task_id].
      do 3 f_equal. f_equal. lia.
    + rewrite <- seq_shift, map_map. apply map_ext. intros i.
      unfold message_draw. cbn [entropy cursor world_after_submit].
      do 3 f_equal. f_equal. lia.
Qed.


End SubmitRows.

(** ** Concrete runs *)

(** The claim of C1 fails on the sample submission: the marker write does
    not come before the enqueue, and with a worker running alongside
    there is an execution in which the worker has stored the result of
    the task while the submission has not yet written any marker. *)
Lemma marker_not_written_before_enqueue :
  let submit := @submit_task sample_collaborators default_settings sample_body in
  let worker := @worker_step sample_collaborators default_settings in
  let mid := "00000000-0000-4246-8acf-13579bde0246" in
  (fst (run submit sample_world) =
     inr {| task_id := mid; message := "Task submitted successfully." |} /\
   happens_before (is_set_of (_submitted_key mid)) (is_enqueue_of mid)
     (history (snd (run submit sample_world))) = false) /\
  (let racing :=
     run_schedule [0; 0; 0; 1; 1; 1]%nat [Submitting submit; Working worker]
       sample_world in
   map thread_finished (fst racing) = [false; true] /\
   results (snd racing) !! mid = Some (dict_of_counts sample_counts) /\
   redis (snd racing) !! _submitted_key mid = None /\
   first_index (is_set_of (_submitted_key mid)) (history (snd racing)) = None).
Proof. vm_compute. repeat split; reflexivity. Qed.



(** The claim of C6 fails: a dict with a negative count and a key that
    is not a string is no mapping from string to non-negative integer,
    and it is answered with [Completed] all the same. *)
Lemma completed_with_malformed_counts :
  let v := PyDict [(PyStr "00", PyInt (-1)); (PyInt 7, PyStr "x")] in
  let w := with_results {[ "t1" := v ]} sample_world in
  fst (run (@task_status sample_collaborators "t1") w) = inr (Completed v) /\
  is_counts_mapping v = false.
Proof. vm_compute. split; reflexivity. Qed.

(** ** The theorems at the sample inputs *)

Lemma sample_enqueue_then_marker :
  run (@submit_task sample_collaborators default_settings sample_body) sample_world =
    (inr sample_response, sample_submitted) /\
  exists msg ttl,
    message_id msg = task_id sample_response /\
    history sample_submitted =
      history sample_world ++
        [EvEnqueue msg;
         EvSet (_submitted_key (task_id sample_response)) (Byte.x31 :: nil) ttl] /\
    happens_before (is_enqueue_of (task_id sample_response))
      (is_set_of (_submitted_key (task_id sample_response)))
      [EvEnqueue msg;
       EvSet (_submitted_key (task_id sample_response)) (Byte.x31 :: nil) ttl] = true /\
    redis sample_submitted !! _submitted_key (task_id sample_response) =
      Some (Byte.x31 :: nil, ttl).
Proof.
  assert (Hrun : run (@submit_task sample_collaborators default_settings sample_body)
                   sample_world = (inr sample_response, sample_submitted))
    by (vm_compute; reflexivity).
  split; [exact Hrun|].
  exact (@marker_written_after_enqueue_before_return sample_collaborators
           default_settings sample_body sample_world sample_submitted
           sample_response Hrun).
Defined.


Lemma sample_pending_query :
  let tid := task_id sample_response in
  (get_result_outcome sample_submitted tid = inl (ResultMissing "missing") \/
   get_result_outcome sample_submitted tid = inl (ResultTimeout "missing")) /\
  (fst (run (@task_status sample_collaborators tid) sample_submitted) =
     inr match redis sample_submitted !! _submitted_key tid with
         | Some _ => StillPending
         | None => NotFound
         end /\
   redis (snd (run (@task_status sample_collaborators tid) sample_submitted)) =
     redis sample_submitted /\
   (@reachable sample_collaborators default_settings sample_submitted ->
    ~ submitted tid sample_submitted ->
    redis sample_submitted !! _submitted_key tid = None /\
    results sample_submitted !! tid = None /\
    fst (run (@task_status sample_collaborators tid) sample_submitted) =
      inr NotFound)).
Proof.
  intros tid.
  assert (Hout : get_result_outcome sample_submitted tid = inl (ResultMissing "missing") \/
                 get_result_outcome sample_submitted tid = inl (ResultTimeout "missing"))
    by (left; vm_compute; reflexivity).
  split; [exact Hout|].
  exact (@no_result_yet_pending_or_not_found sample_collaborators default_settings
           tid sample_submitted "missing" Hout).
Defined.

Lemma sample_repeated_queries :
  let tid := task_id sample_response in
  let v := dict_of_counts sample_counts in
  let items := [(PyStr "00", PyInt 5); (PyStr "11", PyInt 3)] in
  (get_result_outcome sample_completed tid = inr v /\
   @decode_result sample_collaborators v = inr (PyDict items)) /\
  forall n,
    fst (run (@task_status sample_collaborators tid)
           (@after_queries sample_collaborators n tid sample_completed)) =
      inr (Completed (PyDict items)) /\
    redis (@after_queries sample_collaborators (S n) tid sample_completed)
      !! _submitted_key tid = None /\
    results (@after_queries sample_collaborators (S n) tid sample_completed) =
      results sample_completed.
Proof.
  intros tid v items.
  assert (Hout : get_result_outcome sample_completed tid = inr v)
    by (vm_compute; reflexivity).
  assert (Hdec : @decode_result sample_collaborators v = inr (PyDict items))
    by reflexivity.
  split; [split; [exact Hout | exact Hdec]|].
  exact (@completed_query_idempotent sample_collaborators tid sample_completed
           v items Hout Hdec).
Defined.

Lemma sample_dict_result :
  let tid := task_id sample_response in
  let v := dict_of_counts sample_counts in
  get_result_outcome sample_completed tid = inr v /\
  match @decode_result sample_collaborators v with
  | inr (PyDict items) =>
      fst (run (@task_status sample_collaborators tid) sample_completed) =
        inr (Completed (PyDict items))
  | _ =>
      fst (run (@task_status sample_collaborators tid) sample_completed) =
        inr FormatInvalid
  end.
Proof.
  intros tid v.
  assert (Hout : get_result_outcome sample_completed tid = inr v)
    by (vm_compute; reflexivity).
  split; [exact Hout|].
  exact (@completed_exactly_for_dicts sample_collaborators tid sample_completed
           v Hout).
Defined.

Lemma sample_blank_body :
  let blank := {| qc := "   " |} in
  (str_truthy (qc blank) = false \/
   str_truthy (strip (qc blank)) = false \/
   exists e, @qasm3_loads sample_collaborators (strip (qc blank)) = inl e) /\
  exists detail w',
    run (@submit_task sample_collaborators default_settings blank) sample_world =
      (inl (HTTPException 400 detail), w') /\
    redis w' = redis sample_world /\ queue w' = queue sample_world /\
    results w' = results sample_world /\ history w' = history sample_world.
Proof.
  intros blank.
  assert (Hbad : str_truthy (qc blank) = false \/
                 str_truthy (strip (qc blank)) = false \/
                 exists e, @qasm3_loads sample_collaborators (strip (qc blank)) = inl e)
    by (right; left; vm_compute; reflexivity).
  split; [exact Hbad|].
  exact (@rejected_submission_leaves_no_trace sample_collaborators default_settings
           blank sample_world Hbad).
Defined.

Lemma sample_backend_down :
  let tid := task_id sample_response in
  let e := Exception "ConnectionError" "Connection refused" in
  (get_result_outcome sample_faulty tid = inl e /\
   (forall msg, e <> ResultMissing msg) /\
   (forall msg, e <> ResultTimeout msg)) /\
  (fst (run (@task_status sample_collaborators tid) sample_faulty) =
     inr (Error (exn_str e)) /\
   redis (snd (run (@task_status sample_collaborators tid) sample_faulty)) =
     redis sample_faulty /\
   first_index is_any_delete
     (drop (length (history sample_faulty))
        (history (snd (run (@task_status sample_collaborators tid) sample_faulty)))) =
     None).
Proof.
  intros tid e.
  assert (Hout : get_result_outcome sample_faulty tid = inl e)
    by (vm_compute; reflexivity).
  assert (Hmiss : forall msg, e <> ResultMissing msg) by (intros msg; discriminate).
  assert (Htime : forall msg, e <> ResultTimeout msg) by (intros msg; discriminate).
  split; [split; [exact Hout | split; [exact Hmiss | exact Htime]]|].
  exact (@other_backend_error_is_structured sample_collaborators tid sample_faulty
           e Hout Hmiss Htime).
Defined.

Lemma sample_marker_ttl :
  run (@submit_task sample_collaborators default_settings sample_body) sample_world =
    (inr sample_response, sample_submitted) /\
  (let ttl := (max_retries (qasm3_task_options default_settings) *
               time_limit (qasm3_task_options default_settings))%Z in
   redis sample_submitted !! _submitted_key (task_id sample_response) =
     Some (Byte.x31 :: nil, ttl) /\
   last (history sample_submitted) =
     Some (EvSet (_submitted_key (task_id sample_response)) (Byte.x31 :: nil) ttl) /\
   max_retries (qasm3_task_options default_settings) =
     QC_TASK_MAX_RETRIES default_settings /\
   time_limit (qasm3_task_options default_settings) =
     QC_TASK_TIME_LIMIT_MS default_settings).
Proof.
  assert (Hrun : run (@submit_task sample_collaborators default_settings sample_body)
                   sample_world = (inr sample_response, sample_submitted))
    by (vm_compute; reflexivity).
  split; [exact Hrun|].
  exact (@marker_ttl_from_actor_options sample_collaborators default_settings
           sample_body sample_world sample_submitted sample_response Hrun).
Defined.

Lemma sample_two_identifiers :
  run (@submit_task sample_collaborators default_settings sample_body) sample_world =
    (inr sample_response, sample_submitted) /\
  exists msg,
    queue sample_submitted = queue sample_world ++ [msg] /\
    In (EvEnqueue msg) (history sample_submitted) /\
    task_id sample_response = message_id msg /\
    is_Some (redis sample_submitted !! _submitted_key (message_id msg)) /\
    message_id msg = UUID.str (UUID.uuid4_int (second_draw sample_world)) /\
    kwargs_task_id msg = UUID.hex (UUID.uuid4_int (first_draw sample_world)) /\
    kwargs_task_id msg <> message_id msg /\
    "task_submitted:" +:+ kwargs_task_id msg <> _submitted_key (message_id msg).
Proof.
  assert (Hrun : run (@submit_task sample_collaborators default_settings sample_body)
                   sample_world = (inr sample_response, sample_submitted))
    by (vm_compute; reflexivity).
  split; [exact Hrun|].
  exact (@returned_id_is_message_id_not_task_id sample_collaborators default_settings
           sample_body sample_world sample_submitted sample_response Hrun).
Defined.

(** * Further properties *)

(** ** [str.strip] *)

Lemma lstrip_list_spaces (ws l : list ascii) :
  forallb isspace ws = true -> lstrip_list (ws ++ l) = lstrip_list l.
Proof.
  induction ws as [|c ws IH]; simpl; [reflexivity|].
  intros Hws. apply andb_true_iff in Hws as [Hc Hws]. rewrite Hc. auto.
Qed.

Lemma lstrip_list_blank (l : list ascii) :
  lstrip_list l = [] <-> forallb isspace l = true.
Proof.
  induction l as [|c l IH]; simpl; [tauto|].
  destruct (isspace c); simpl; [exact IH|]. split; discriminate.
Qed.

Lemma lstrip_list_split (l : list ascii) :
  exists ws, forallb isspace ws = true /\ l = ws ++ lstrip_list l.
Proof.
  induction l as [|c l (ws & Hws & Hl)]; simpl.
  - exists []. auto.
  - destruct (isspace c) eqn:Hc.
    + exists (c :: ws). simpl. rewrite Hc, Hws. split; [reflexivity | congruence].
    + exists []. auto.
Qed.

Lemma lstrip_list_head (l : list ascii) (c : ascii) (l' : list ascii) :
  lstrip_list l = c :: l' -> isspace c = false.
Proof.
  induction l as [|a l IH]; simpl; [discriminate|].
  destruct (isspace a) eqn:Ha; [exact IH|]. intros Heq. congruence.
Qed.

Lemma lstrip_list_fixed (c : ascii) (l : list ascii) :
  isspace c = false -> lstrip_list (c :: l) = c :: l.
Proof. intros Hc. simpl. now rewrite Hc. Qed.

Lemma lstrip_list_app (l x : list ascii) :
  forallb isspace l = false -> lstrip_list (l ++ x) = lstrip_list l ++ x.
Proof.
  induction l as [|c l IH]; simpl; [discriminate|].
  destruct (isspace c); simpl; [exact IH | reflexivity].
Qed.

Lemma forallb_isspace_rev (l : list ascii) :
  forallb isspace (rev l) = forallb isspace l.
Proof.
  induction l as [|c l IH]; simpl; [reflexivity|].
  rewrite forallb_app, IH. simpl. rewrite andb_true_r. apply andb_comm.
Qed.

Lemma strip_strip_list (s : string) :
  strip s = string_of_list_ascii (strip_list (list_ascii_of_string s)).
Proof. reflexivity. Qed.

Lemma strip_list_blank (l : list ascii) :
  strip_list l = [] <-> forallb isspace l = true.
Proof.
  unfold strip_list. split.
  - intros Hnil. apply (f_equal (@rev ascii)) in Hnil.
    rewrite rev_involutive in Hnil. simpl in Hnil.
    apply lstrip_list_blank in Hnil. rewrite forallb_isspace_rev in Hnil.
    destruct (lstrip_list l) as [|c l'] eqn:Hl; [now apply lstrip_list_blank|].
    apply lstrip_list_head in Hl. simpl in Hnil. rewrite Hl in Hnil. discriminate.
  - intros Hblank. apply lstrip_list_blank in Hblank. now rewrite Hblank.
Qed.

Lemma strip_list_padded (ws l ws' : list ascii) :
  forallb isspace ws = true -> forallb isspace ws' = true ->
  strip_list (ws ++ l ++ ws') = strip_list l.
Proof.
  intros Hws Hws'. unfold strip_list. rewrite lstrip_list_spaces by assumption.
  destruct (forallb isspace l) eqn:Hl.
  - assert (Hall : forallb isspace (l ++ ws') = true)
      by (rewrite forallb_app, Hl, Hws'; reflexivity).
    apply lstrip_list_blank in Hall, Hl. now rewrite Hall, Hl.
  - rewrite lstrip_list_app by assumption.
    rewrite rev_app_distr, lstrip_list_spaces; [reflexivity|].
    now rewrite forallb_isspace_rev.
Qed.

Lemma strip_list_trimmed (l : list ascii) :
  lstrip_list (strip_list l) = strip_list l /\
  lstrip_list (rev (strip_list l)) = rev (strip_list l).
Proof.
  unfold strip_list. rewrite rev_involutive.
  set (a := lstrip_list l). set (b := lstrip_list (rev a)).
  assert (Hb : lstrip_list b = b).
  { subst b. destruct (lstrip_list (rev a)) as [|c b'] eqn:Hb; [reflexivity|].
    apply lstrip_list_fixed. eapply lstrip_list_head, Hb. }
  split; [|exact Hb].
  destruct (lstrip_list_split (rev a)) as (ws & Hws & Hsplit). fold b in Hsplit.
  apply (f_equal (@rev ascii)) in Hsplit.
  rewrite rev_involutive, rev_app_distr in Hsplit.
  destruct (rev b) as [|c r] eqn:Hr; [reflexivity|].
  apply lstrip_list_fixed.
  subst a. rewrite <- app_comm_cons in Hsplit.
  eapply lstrip_list_head, Hsplit.
Qed.

Lemma str_truthy_of_list (l : list ascii) :
  str_truthy (string_of_list_ascii l) = negb (forallb (fun _ => false) l).
Proof. destruct l; reflexivity. Qed.

(** The test [not body.qc or not body.qc.strip()] of [submit_task]. *)
Lemma empty_check_blank (s : string) :
  negb (str_truthy s) || negb (str_truthy (strip s)) =
  forallb isspace (list_ascii_of_string s).
Proof.
  rewrite strip_strip_list.
  destruct (forallb isspace (list_ascii_of_string s)) eqn:Hblank.
  - apply strip_list_blank in Hblank. rewrite Hblank. simpl. apply orb_true_r.
  - assert (Hne : strip_list (list_ascii_of_string s) <> []).
    { intros Hnil. apply strip_list_blank in Hnil. congruence. }
    destruct (strip_list (list_ascii_of_string s)) as [|c l]; [contradiction|].
    destruct s; [discriminate Hblank | reflexivity].
Qed.

Lemma strip_padded (ws s ws' : string) :
  forallb isspace (list_ascii_of_string ws) = true ->
  forallb isspace (list_ascii_of_string ws') = true ->
  strip (ws +:+ s +:+ ws') = strip s.
Proof.
  intros Hws Hws'. rewrite !strip_strip_list, !list_ascii_of_string_append.
  now rewrite strip_list_padded.
Qed.

(** ** Submission *)

Section SubmitMore.

Context `{Collaborators} (cfg : Settings).


(** X2.  Blanks around the body do not matter: a body and the same body
    with blanks before and after it are answered alike and leave the
    same world. *)
Theorem submit_task_ignores_padding (ws text ws' : string) (w : World) :
  forallb isspace (list_ascii_of_string ws) = true ->
  forallb isspace (list_ascii_of_string ws') = true ->
  run (submit_task cfg {| qc := ws +:+ text +:+ ws' |}) w =
  run (submit_task cfg {| qc := text |}) w.
Proof.
  intros Hws Hws'. unfold submit_task. simpl.
  rewrite !empty_check_blank, (strip_padded ws text ws') by assumption.
  rewrite !list_ascii_of_string_append, !forallb_app, Hws, Hws'.
  simpl. rewrite andb_true_r. reflexivity.
Qed.

(** X3.  An accepted submission adds one message at the tail of the
    queue, carrying the printed form of the circuit parsed from the
    stripped body, and writes one marker; every other key of the store
    and the whole result backend are as before. *)
Theorem accepted_submission_frame
    (body : TaskDTO) (w w' : World) (r : TaskSubmitResponse) :
  run (submit_task cfg body) w = (inr r, w') ->
  (exists circuit msg,
     qasm3_loads (strip (qc body)) = inr circuit /\
     qasm3_dumps circuit = inr (kwargs_qasm3_str msg) /\
     message_id msg = task_id r /\
     queue w' = queue w ++ [msg]) /\
  (forall key, key <> _submitted_key (task_id r) ->
     redis w' !! key = redis w !! key) /\
  results w' = results w /\
  backend_fault w' = backend_fault w.
Proof.
  intros Hrun.
  apply submit_task_accepted in Hrun as (circuit & dumped & Hloads & Hdumps & -> & ->).
  split; [|split; [|split]]; simpl.
  - exists circuit, (submitted_message dumped w). auto.
  - intros key Hne. apply lookup_insert_ne. congruence.
  - reflexivity.
  - reflexivity.
Qed.

(** X4.  Right after an accepted submission, with the backend up and no
    result under the new id, a query on the returned id is answered with
    pending. *)
Theorem pending_right_after_submit
    (body : TaskDTO) (w w' : World) (r : TaskSubmitResponse) :
  run (submit_task cfg body) w = (inr r, w') ->
  backend_fault w = None ->
  results w !! task_id r = None ->
  fst (run (task_status (task_id r)) w') = inr StillPending.
Proof.
  intros Hrun Hfault Hres.
  apply submit_task_accepted in Hrun as (circuit & dumped & _ & _ & -> & ->).
  rewrite task_status_run. unfold get_result_outcome. simpl.
  simpl in Hres. rewrite Hfault, Hres. simpl.
  now rewrite lookup_insert_eq.
Qed.

(** X5.  Submission, work and query in a row.  When a submission is
    accepted in a world with an empty queue and the backend up, and a
    worker step then completes, a query on the returned id is answered
    with [Completed] and the dict of the counts; the marker outlived the
    worker and is removed by that query. *)
Theorem submit_work_query
    (body : TaskDTO) (w w1 w2 : World) (r : TaskSubmitResponse) :
  queue w = [] ->
  backend_fault w = None ->
  run (submit_task cfg body) w = (inr r, w1) ->
  run (worker_step cfg) w1 = (inr tt, w2) ->
  exists counts,
    is_Some (redis w2 !! _submitted_key (task_id r)) /\
    fst (run (task_status (task_id r)) w2) =
      inr (Completed (dict_of_counts counts)) /\
    redis (snd (run (task_status (task_id r)) w2)) !! _submitted_key (task_id r) = None.
Proof.
  intros Hqueue Hfault Hsubmit Hwork.
  apply submit_task_accepted in Hsubmit as (circuit & dumped & _ & _ & -> & ->).
  rewrite worker_step_run in Hwork.
  change (queue (world_after_submit cfg dumped w))
    with (queue w ++ [submitted_message dumped w]) in Hwork.
  rewrite Hqueue in Hwork. cbn [app] in Hwork.
  rewrite process_message_run in Hwork.
  destruct (qasm3_loads (kwargs_qasm3_str (submitted_message dumped w)))
    as [e | parsed]; [discriminate|].
  destruct (simulate_counts parsed (QC_TASK_DEFAULT_SHOTS cfg)) as [e | counts];
    [discriminate|].
  injection Hwork as <-. exists counts.
  set (mid := task_id (submit_response w)).
  set (w2 := world_after_success _ _ _).
  assert (Hmarker : is_Some (redis w2 !! _submitted_key mid)).
  { subst w2 mid. simpl. rewrite lookup_delete_ne, lookup_insert_eq; [eauto|].
    unfold _submitted_key, _SUBMITTED_PREFIX. intros Heq.
    apply String.app_inj in Heq. revert Heq. apply uuid_hex_ne_str. }
  assert (Hout : get_result_outcome w2 mid = inr (dict_of_counts counts)).
  { unfold get_result_outcome. subst w2 mid. simpl. rewrite Hfault.
    now rewrite lookup_insert_eq. }
  split; [exact Hmarker|].
  rewrite task_status_run, Hout. simpl.
  split; [reflexivity | apply lookup_delete_eq].
Qed.

End SubmitMore.

(** ** Status queries *)

Section QueryMore.

Context `{Collaborators}.

(** X6.  Whatever the result backend gives (a value of any shape, bytes
    that do not decode or parse, any exception), [task_status] turns it
    into a status: with the marker store taking its calls, it raises in
    no case. *)
Theorem task_status_always_answers (tid : string) (w : World) :
  exists response, fst (run (task_status tid) w) = inr response.
Proof.
  rewrite task_status_run. simpl.
  destruct (get_result_outcome w tid) as [e | v].
  - destruct e; simpl; eauto.
  - destruct (decode_result v) as [response | result]; simpl; [eauto|].
    destruct (is_dict result); simpl; eauto.
Qed.

(** X7.  A query changes nothing but the marker of the id it was asked
    about: that marker is removed when the answer is [Completed] and
    kept in every other case; the other keys of the store, the result
    backend, the queue and the entropy source are as before. *)
Theorem task_status_only_touches_own_marker (tid : string) (w : World) :
  let response := fst (run (task_status tid) w) in
  let w' := snd (run (task_status tid) w) in
  match response with
  | inr (Completed _) => redis w' = delete (_submitted_key tid) (redis w)
  | _ => redis w' = redis w
  end /\
  (forall key, key <> _submitted_key tid -> redis w' !! key = redis w !! key) /\
  results w' = results w /\ queue w' = queue w /\
  backend_fault w' = backend_fault w /\
  entropy w' = entropy w /\ cursor w' = cursor w.
Proof.
  rewrite task_status_run. simpl.
  destruct (get_result_outcome w tid) as [e | v].
  - destruct e; simpl; repeat split; auto;
      destruct (redis w !! _submitted_key tid); reflexivity.
  - destruct (decode_result v) as [response | result] eqn:Hdec; simpl.
    + apply decode_result_inl in Hdec as ->. repeat split; auto.
    + destruct result; simpl; repeat split; auto.
      intros key Hne. apply lookup_delete_ne. congruence.
Qed.

(** X8.  A result delivered as [bytes] or [bytearray] that decode and
    parse to a value that is not itself bytes is answered as that value
    would be: same status, same store afterwards. *)
Theorem bytes_result_answered_as_decoded
    (tid : string) (w1 w2 : World) (raw : PyVal) (b : list Byte.byte)
    (text : string) (v : PyVal) :
  is_bytes_like raw = Some b ->
  bytes_decode_utf8 b = inr text ->
  json_loads text = inr v ->
  is_bytes_like v = None ->
  get_result_outcome w1 tid = inr raw ->
  get_result_outcome w2 tid = inr v ->
  redis w1 = redis w2 ->
  fst (run (task_status tid) w1) = fst (run (task_status tid) w2) /\
  redis (snd (run (task_status tid) w1)) = redis (snd (run (task_status tid) w2)).
Proof.
  intros Hraw Hutf Hjson Hv Hout1 Hout2 Hredis.
  rewrite !task_status_run, Hout1, Hout2. simpl.
  assert (Hd1 : decode_result raw = inr v)
    by (unfold decode_result; now rewrite Hraw, Hutf, Hjson).
  assert (Hd2 : decode_result v = inr v)
    by (unfold decode_result; now rewrite Hv).
  rewrite Hd1, Hd2, Hredis. destruct (is_dict v); auto.
Qed.

(** X9.  While the marker is there, no result is stored and the backend
    is up, any number of queries in a row are all answered with pending
    and leave the store as it is. *)
Theorem pending_queries_are_stable (tid : string) (w : World) :
  is_Some (redis w !! _submitted_key tid) ->
  results w !! tid = None ->
  backend_fault w = None ->
  forall n,
    fst (run (task_status tid) (after_queries n tid w)) = inr StillPending /\
    redis (after_queries n tid w) = redis w.
Proof.
  intros [flag Hflag] Hres Hfault n.
  assert (Hout : get_result_outcome w tid = inl (ResultMissing "missing"))
    by (unfold get_result_outcome; now rewrite Hfault, Hres).
  assert (Hredis : redis (after_queries n tid w) = redis w).
  { induction n as [|n IH]; cbn [after_queries]; [reflexivity|].
    rewrite task_status_run, after_queries_outcome, Hout. exact IH. }
  split; [|exact Hredis].
  rewrite task_status_run, after_queries_outcome, Hout. simpl.
  now rewrite Hredis, Hflag.
Qed.

End QueryMore.

(** ** The actor and the worker *)

Section WorkerMore.

Context `{Collaborators} (cfg : Settings).

(** X10.  When the parser or the simulator raises, the actor raises the
    same exception and has done nothing: no key deleted, nothing stored,
    nothing recorded. *)
Theorem qasm3_task_failure_leaves_no_trace
    (task_id qasm3_str : string) (shots : Z) (w : World) (e : exn) :
  qasm3_loads qasm3_str = inl e \/
  (exists circuit,
     qasm3_loads qasm3_str = inr circuit /\ simulate_counts circuit shots = inl e) ->
  run (qasm3_task task_id qasm3_str shots) w = (inl e, w).
Proof.
  intros [Hloads | (circuit & Hloads & Hsim)];
    unfold qasm3_task; simpl; rewrite Hloads; simpl; [reflexivity|].
  rewrite Hsim. reflexivity.
Qed.

(** X11.  When parsing and simulation succeed, the actor returns the
    dict of the counts the simulator gave for the requested shots, and
    its one effect is the delete of the key [task_submitted:] followed
    by its [task_id] argument: that key is absent afterwards, every
    other key and the result backend are as before. *)
Theorem qasm3_task_success
    (task_id qasm3_str : string) (shots : Z) (w : World)
    (circuit : Circuit) (counts : list (string * Z)) :
  qasm3_loads qasm3_str = inr circuit ->
  simulate_counts circuit shots = inr counts ->
  let key := "task_submitted:" +:+ task_id in
  let w' := snd (run (qasm3_task task_id qasm3_str shots) w) in
  fst (run (qasm3_task task_id qasm3_str shots) w) = inr (dict_of_counts counts) /\
  history w' = history w ++ [EvDelete key] /\
  redis w' !! key = None /\
  (forall other, other <> key -> redis w' !! other = redis w !! other) /\
  results w' = results w /\ queue w' = queue w.
Proof.
  intros Hloads Hsim. unfold qasm3_task. simpl. rewrite Hloads. simpl.
  rewrite Hsim. simpl. repeat split.
  - apply lookup_delete_eq.
  - intros other Hne. apply lookup_delete_ne. congruence.
Qed.

Lemma built_by_submit_message (dumped : string) (w : World) :
  built_by_submit (submitted_message dumped w).
Proof. eexists _, _. split; reflexivity. Qed.

Lemma provenance_step (w w' : World) :
  provenance cfg w ->
  (forall m, In (EvEnqueue m) (history w') ->
     In (EvEnqueue m) (history w) \/ built_by_submit m) ->
  (forall key x, redis w' !! key = Some x ->
     redis w !! key = Some x \/
     x = (Byte.x31 :: nil, (QC_TASK_TIME_LIMIT_MS cfg * QC_TASK_MAX_RETRIES cfg)%Z)) ->
  (forall mid v, results w' !! mid = Some v ->
     results w !! mid = Some v \/ exists counts, v = dict_of_counts counts) ->
  provenance cfg w'.
Proof.
  intros (Henq & Hredis & Hres) Hh Hr Hs. split; [|split].
  - intros m Hm. destruct (Hh m Hm); auto.
  - intros key value px Hkey. destruct (Hr _ _ Hkey) as [Hold | Hnew].
    + eapply Hredis, Hold.
    + injection Hnew as -> ->. auto.
  - intros mid v Hv. destruct (Hs _ _ Hv) as [Hold | Hnew]; [|exact Hnew].
    eapply Hres, Hold.
Qed.

Lemma lookup_delete_Some_old {V : Type} (m : gmap string V) (k k' : string) (x : V) :
  delete k m !! k' = Some x -> m !! k' = Some x.
Proof. intros Hx. apply lookup_delete_Some in Hx. tauto. Qed.

Lemma in_snoc_enqueue (m : Message) (h : list event) (ev : event) :
  In (EvEnqueue m) (h ++ [ev]) -> In (EvEnqueue m) h \/ ev = EvEnqueue m.
Proof. intros Hin. apply in_app_or in Hin as [Hin | [Heq | []]]; auto. Qed.

Lemma provenance_submit (body : TaskDTO) (w : World) :
  provenance cfg w -> provenance cfg (snd (run (submit_task cfg body) w)).
Proof.
  intros Hp.
  destruct (run (submit_task cfg body) w) as [[e | r] w'] eqn:Hrun.
  - apply submit_task_raises in Hrun as ->. exact Hp.
  - apply submit_task_accepted in Hrun as (circuit & dumped & _ & _ & _ & ->).
    apply (provenance_step w); [exact Hp | | |]; simpl.
    + intros m Hm. apply in_snoc_enqueue in Hm as [Hm | Hm]; [|discriminate].
      apply in_snoc_enqueue in Hm as [Hm | Hm]; [auto|].
      injection Hm as <-. right. apply built_by_submit_message.
    + intros key x Hx.
      destruct (decide (_submitted_key (UUID.str (UUID.uuid4_int (second_draw w))) = key))
        as [<- | Hne].
      * rewrite lookup_insert_eq in Hx. injection Hx as <-. auto.
      * rewrite lookup_insert_ne in Hx by assumption. auto.
    + auto.
Qed.

Lemma task_status_effects (tid : string) (w : World) :
  let w' := snd (run (task_status tid) w) in
  (exists suffix,
     history w' = history w ++ suffix /\
     forall m, ~ In (EvEnqueue m) suffix) /\
  (redis w' = redis w \/ redis w' = delete (_submitted_key tid) (redis w)).
Proof.
  rewrite task_status_run. simpl.
  assert (Hone : forall m, ~ In (EvEnqueue m) [EvGetResult tid])
    by (intros m [Heq | []]; discriminate).
  assert (Hget : forall m, ~ In (EvEnqueue m) [EvGetResult tid; EvGet (_submitted_key tid)])
    by (intros m [Heq | [Heq | []]]; discriminate).
  assert (Hdel : forall m, ~ In (EvEnqueue m) [EvGetResult tid; EvDelete (_submitted_key tid)])
    by (intros m [Heq | [Heq | []]]; discriminate).
  destruct (get_result_outcome w tid) as [e | v].
  - destruct e; simpl; (split; [|auto]);
      first [ exists [EvGetResult tid; EvGet (_submitted_key tid)];
              split; [now rewrite <- app_assoc | exact Hget]
            | exists [EvGetResult tid]; split; [reflexivity | exact Hone] ].
  - destruct (decode_result v) as [response | result]; simpl.
    + split; [|auto]. exists [EvGetResult tid]. split; [reflexivity | exact Hone].
    + destruct (is_dict result); simpl; (split; [|auto]).
      * exists [EvGetResult tid; EvDelete (_submitted_key tid)].
        split; [now rewrite <- app_assoc | exact Hdel].
      * exists [EvGetResult tid]. split; [reflexivity | exact Hone].
Qed.

Lemma provenance_query (tid : string) (w : World) :
  provenance cfg w -> provenance cfg (snd (run (task_status tid) w)).
Proof.
  intros Hp.
  destruct (task_status_effects tid w) as ((suffix & Hhist & Hnone) & Hredis).
  destruct (task_status_backend tid w) as (Hres & _ & _).
  apply (provenance_step w); [exact Hp | | |].
  - intros m Hm. rewrite Hhist in Hm. apply in_app_or in Hm as [Hm | Hm]; [auto|].
    exfalso. eapply Hnone, Hm.
  - intros key x Hx. left. destruct Hredis as [Heq | Heq]; rewrite Heq in Hx;
      [exact Hx | eapply lookup_delete_Some_old, Hx].
  - intros mid v Hv. left. now rewrite Hres in Hv.
Qed.

Lemma provenance_worker (w : World) :
  provenance cfg w -> provenance cfg (snd (run (worker_step cfg) w)).
Proof.
  intros Hp. rewrite worker_step_run. destruct (queue w) as [|m q].
  - apply (provenance_step w); [exact Hp | | |]; simpl; auto.
    intros m Hm. apply in_snoc_enqueue in Hm as [Hm | Hm]; [auto | discriminate].
  - rewrite process_message_run.
    assert (Hp1 : provenance cfg (record (EvDequeue (Some m)) (with_queue q w))).
    { apply (provenance_step w); [exact Hp | | |]; simpl; auto.
      intros m' Hm. apply in_snoc_enqueue in Hm as [Hm | Hm]; [auto | discriminate]. }
    destruct (qasm3_loads (kwargs_qasm3_str m)) as [e | circuit]; [exact Hp1|].
    destruct (simulate_counts circuit (QC_TASK_DEFAULT_SHOTS cfg)) as [e | counts];
      [exact Hp1|].
    apply (provenance_step w); [exact Hp | | |]; simpl.
    + intros m' Hm.
      repeat (apply in_snoc_enqueue in Hm as [Hm | Hm]; [|discriminate]). auto.
    + intros key x Hx. left. eapply lookup_delete_Some_old, Hx.
    + intros mid v Hv. destruct (decide (message_id m = mid)) as [<- | Hne].
      * rewrite lookup_insert_eq in Hv. injection Hv as <-. eauto.
      * rewrite lookup_insert_ne in Hv by assumption. auto.
Qed.

Lemma reachable_provenance (w : World) : reachable cfg w -> provenance cfg w.
Proof.
  induction 1 as [e | w body _ IH | w tid _ IH | w _ IH | w key _ IH
                 | w mid _ IH | w f _ IH | w m _ IH Hin].
  - split; [|split]; simpl.
    + intros m [].
    + intros key value px Hx. rewrite lookup_empty in Hx. discriminate.
    + intros mid v Hx. rewrite lookup_empty in Hx. discriminate.
  - now apply provenance_submit.
  - now apply provenance_query.
  - now apply provenance_worker.
  - apply (provenance_step w); [exact IH | | |]; simpl; auto.
    intros k x Hx. left. eapply lookup_delete_Some_old, Hx.
  - apply (provenance_step w); [exact IH | | |]; simpl; auto.
    intros k x Hx. left. eapply lookup_delete_Some_old, Hx.
  - apply (provenance_step w); [exact IH | | |]; simpl; auto.
  - apply (provenance_step w); [exact IH | | |]; simpl; auto.
Qed.

(** X12.  In a reachable world a worker step never removes a marker: the
    key it deletes is built from the [hex] id inside the message, and no
    marker is stored under such a key.  Markers go away only through
    queries and expiry. *)
Theorem worker_step_keeps_every_marker (w : World) :
  reachable cfg w -> redis (snd (run (worker_step cfg) w)) = redis w.
Proof.
  intros Hreach.
  destruct (reachable_well_formed cfg w Hreach) as (Hkeys & _ & Hqueue).
  destruct (reachable_provenance w Hreach) as (Hbuilt & _ & _).
  rewrite worker_step_run. destruct (queue w) as [|m q] eqn:Hq; [reflexivity|].
  rewrite process_message_run.
  destruct (qasm3_loads (kwargs_qasm3_str m)) as [e | circuit]; [reflexivity|].
  destruct (simulate_counts circuit (QC_TASK_DEFAULT_SHOTS cfg)) as [e | counts];
    [reflexivity|].
  simpl. apply delete_id.
  destruct (redis w !! ("task_submitted:" +:+ kwargs_task_id m)) as [x|] eqn:Hx;
    [exfalso | reflexivity].
  destruct (Hkeys ("task_submitted:" +:+ kwargs_task_id m)) as (m' & Hm' & Heq);
    [rewrite Hx; eauto|].
  unfold _submitted_key, _SUBMITTED_PREFIX in Heq. apply String.app_inj in Heq.
  destruct (Hbuilt m) as (u1 & _ & Hhex & _);
    [apply Hqueue; rewrite ?Hq; left; reflexivity|].
  destruct (Hbuilt m' Hm') as (_ & u2 & _ & Hstr).
  rewrite Hhex, Hstr in Heq. revert Heq. apply uuid_hex_ne_str.
Qed.


(** X14.  Every marker in a reachable world is as [submit_task] wrote
    it: keyed by the prefix and the dashed id of a message that was
    handed to the broker, with the value [b"1"] and the expiry
    time limit times retries. *)
Theorem reachable_markers_are_uniform
    (w : World) (key : string) (value : list Byte.byte) (px : Z) :
  reachable cfg w ->
  redis w !! key = Some (value, px) ->
  value = Byte.x31 :: nil /\
  px = (QC_TASK_TIME_LIMIT_MS cfg * QC_TASK_MAX_RETRIES cfg)%Z /\
  exists u, key = _submitted_key (UUID.str u) /\ submitted (UUID.str u) w.
Proof.
  intros Hreach Hkey.
  destruct (reachable_well_formed cfg w Hreach) as (Hkeys & _ & _).
  destruct (reachable_provenance w Hreach) as (Hbuilt & Hvalues & _).
  destruct (Hvalues _ _ _ Hkey) as [-> ->]. split; [reflexivity|].
  split; [reflexivity|].
  destruct (Hkeys key) as (m & Hm & ->); [rewrite Hkey; eauto|].
  destruct (Hbuilt m Hm) as (_ & u & _ & Hstr).
  exists u. rewrite <- Hstr. split; [reflexivity|]. exists m. auto.
Qed.

End WorkerMore.

(** ** Queries running side by side *)

Section QueryRaces.

Context `{Collaborators}.

Lemma task_status_first_step (tid : string) (w : World) (v r : PyVal) :
  get_result_outcome w tid = inr v ->
  decode_result v = inr r ->
  is_dict r = true ->
  step1 (task_status tid) w = (awaiting_delete tid r, record (EvGetResult tid) w).
Proof.
  intros Hout Hdec Hdict. unfold task_status, awaiting_delete. simpl.
  rewrite Hout. simpl. rewrite Hdec, Hdict. reflexivity.
Qed.

Lemma query_stage_step (tid : string) (v r : PyVal) (t : thread) (w : World) :
  get_result_outcome w tid = inr v ->
  decode_result v = inr r ->
  is_dict r = true ->
  query_stage tid r t ->
  query_stage tid r (fst (step_thread t w)) /\
  get_result_outcome (snd (step_thread t w)) tid = inr v.
Proof.
  intros Hout Hdec Hdict Hstage.
  destruct t as [p | p | p]; simpl in Hstage; try contradiction.
  destruct Hstage as [-> | [-> | ->]]; unfold step_thread.
  - rewrite (task_status_first_step tid w v r) by assumption. simpl. auto.
  - simpl. auto.
  - simpl. auto.
Qed.

(** X15.  Queries on a task whose result normalises to a dict may run
    side by side and race on the marker: under every interleaving of
    their primitive steps, each query that has finished has returned
    [Completed] with that dict, and the result is still in the
    backend. *)
Theorem racing_queries_all_complete
    (tid : string) (v r : PyVal) (sched : list nat) (pool : list thread) (w : World) :
  get_result_outcome w tid = inr v ->
  decode_result v = inr r ->
  is_dict r = true ->
  Forall (query_stage tid r) pool ->
  let final := run_schedule sched pool w in
  (forall t, In t (fst final) -> thread_finished t = true ->
     t = Querying (Ret (Completed r))) /\
  get_result_outcome (snd final) tid = inr v /\
  length (fst final) = length pool.
Proof.
  intros Hout Hdec Hdict Hpool.
  assert (Hinv : Forall (query_stage tid r) (fst (run_schedule sched pool w)) /\
                 get_result_outcome (snd (run_schedule sched pool w)) tid = inr v /\
                 length (fst (run_schedule sched pool w)) = length pool).
  { revert pool w Hout Hpool. induction sched as [|i sched IH]; intros pool w Hout Hpool.
    - simpl. auto.
    - simpl. destruct (pool !! i) as [t|] eqn:Ht; [|now apply IH].
      assert (Hstage : query_stage tid r t)
        by (eapply (proj1 (Forall_lookup _ _)); eassumption).
      destruct (query_stage_step tid v r t w Hout Hdec Hdict Hstage) as [Hnext Hout'].
      destruct (step_thread t w) as [t' w'] eqn:Hstep. simpl in Hnext, Hout'.
      destruct (IH (<[i := t']> pool) w' Hout') as (Hall & Hfinal & Hlen).
      + apply Forall_insert; assumption.
      + rewrite length_insert in Hlen. auto. }
  destruct Hinv as (Hall & Hfinal & Hlen). split; [|auto].
  intros t Hin Hdone.
  assert (Hstage : query_stage tid r t).
  { apply (proj1 (List.Forall_forall _ _) Hall). exact Hin. }
  destruct t as [p | p | p]; simpl in Hstage; try contradiction.
  destruct Hstage as [-> | [-> | ->]]; [discriminate | discriminate | reflexivity].
Qed.

End QueryRaces.

(** ** app/helpers.py *)

(** X16.  [new_task_id] reads the entropy source once, touches nothing
    else, and always returns 32 lowercase hexadecimal characters. *)
Theorem new_task_id_is_hex32 (w : World) :
  exists id,
    run new_task_id w = (inr id, advance w) /\
    id = UUID.hex (UUID.uuid4_int (first_draw w)) /\
    String.length id = 32 /\
    UUID.HEX_RE_match id = true.
Proof.
  exists (UUID.hex (UUID.uuid4_int (first_draw w))).
  split; [reflexivity|]. split; [reflexivity|].
  split; [apply hex_fixed_length | apply uuid_hex_matches_HEX_RE].
Qed.

Lemma uuid_hex_inj (a b : Z) :
  (0 <= a < 2 ^ 128)%Z -> (0 <= b < 2 ^ 128)%Z ->
  UUID.hex a = UUID.hex b -> a = b.
Proof.
  intros Ha Hb Heq. apply (hex_fixed_inj 32); assumption.
Qed.

(** X17.  Two calls of [new_task_id] return the same id exactly when
    the two UUIDs they drew are the same: distinct UUIDs never collide
    in their hex form. *)
Theorem new_task_id_collides_only_on_equal_uuids (w1 w2 : World) :
  fst (run new_task_id w1) = fst (run new_task_id w2) <->
  UUID.uuid4_int (first_draw w1) = UUID.uuid4_int (first_draw w2).
Proof.
  change (fst (run new_task_id w1))
    with (@inr exn string (UUID.hex (UUID.uuid4_int (first_draw w1)))).
  change (fst (run new_task_id w2))
    with (@inr exn string (UUID.hex (UUID.uuid4_int (first_draw w2)))).
  split.
  - intros Heq.
    assert (Hhex : UUID.hex (UUID.uuid4_int (first_draw w1)) =
                   UUID.hex (UUID.uuid4_int (first_draw w2))) by congruence.
    apply uuid_hex_inj in Hhex; [exact Hhex | |];
      apply uuid4_int_range, Z.mod_pos_bound; lia.
  - intros ->. reflexivity.
Qed.

(** ** app/settings.py *)

Lemma skip_spaces_blank (ws l : list ascii) :
  forallb Py_ISSPACE ws = true -> skip_spaces (ws ++ l) = skip_spaces l.
Proof.
  induction ws as [|c ws IH]; simpl; [reflexivity|].
  intros Hws. apply andb_prop in Hws as [Hc Hws]. rewrite Hc. auto.
Qed.

Lemma skip_spaces_all_blank (ws : list ascii) :
  forallb Py_ISSPACE ws = true -> skip_spaces ws = [].
Proof.
  intros Hws. rewrite <- (app_nil_r ws), skip_spaces_blank by assumption.
  reflexivity.
Qed.

Lemma skip_spaces_empty (l : list ascii) :
  skip_spaces l = [] -> forallb Py_ISSPACE l = true.
Proof.
  induction l as [|c l IH]; simpl; [reflexivity|].
  destruct (Py_ISSPACE c); [auto | discriminate].
Qed.

Lemma skip_spaces_split (l : list ascii) :
  exists ws, l = ws ++ skip_spaces l /\ forallb Py_ISSPACE ws = true.
Proof.
  induction l as [|c l (ws & Hl & Hws)]; simpl.
  - exists []. auto.
  - destruct (Py_ISSPACE c) eqn:Hc.
    + exists (c :: ws). simpl. rewrite Hc, Hws, <- Hl. auto.
    + exists []. auto.
Qed.

Lemma blank_is_no_digit (c : ascii) :
  Py_ISSPACE c = true -> Py_ISDIGIT c = false /\ Ascii.eqb c "_"%char = false.
Proof.
  destruct c as [[] [] [] [] [] [] [] []]; vm_compute; intros Hc;
    first [discriminate Hc | split; reflexivity].
Qed.

Lemma digit_is_plain (c : ascii) :
  Py_ISDIGIT c = true ->
  Py_ISSPACE c = false /\ Ascii.eqb c "_"%char = false /\
  Ascii.eqb c "+"%char = false /\ Ascii.eqb c "-"%char = false.
Proof.
  destruct c as [[] [] [] [] [] [] [] []]; vm_compute; intros Hc;
    first [discriminate Hc | repeat split; reflexivity].
Qed.

Lemma forallb_literal_weaken (P : ascii -> bool) (l : list ascii) :
  (forall c, P c = true -> int_literal_char c = true) ->
  forallb P l = true -> forallb int_literal_char l = true.
Proof.
  intros HP. induction l as [|c l IH]; simpl; [reflexivity|].
  intros Hl. apply andb_prop in Hl as [Hc Hl]. rewrite (HP c Hc). auto.
Qed.

Lemma blanks_are_literal (l : list ascii) :
  forallb Py_ISSPACE l = true -> forallb int_literal_char l = true.
Proof.
  apply forallb_literal_weaken. intros c Hc. unfold int_literal_char.
  rewrite Hc. rewrite orb_true_r. reflexivity.
Qed.

(** What [scan_digits] reads is made of digits and underscores. *)
Lemma scan_digits_consumes (l : list ascii) :
  forall acc digits prev_us value digits' rest,
    scan_digits l acc digits prev_us = Some (value, digits', rest) ->
    exists read, l = read ++ rest /\ forallb int_literal_char read = true.
Proof.
  induction l as [|c l IH]; intros acc digits prev_us value digits' rest; simpl.
  - destruct prev_us; [discriminate|]. intros [= _ _ <-]. exists []. auto.
  - destruct (Py_ISDIGIT c) eqn:Hd.
    + intros Hscan. apply IH in Hscan as (read & -> & Hread).
      exists (c :: read). split; [reflexivity|]. simpl.
      unfold int_literal_char at 1. rewrite Hd. exact Hread.
    + destruct (Ascii.eqb c "_") eqn:Hu.
      * destruct prev_us; [discriminate|].
        intros Hscan. apply IH in Hscan as (read & -> & Hread).
        exists (c :: read). split; [reflexivity|]. simpl.
        unfold int_literal_char at 1. rewrite Hu, Hread.
        rewrite orb_true_r. reflexivity.
      * destruct prev_us; [discriminate|]. intros [= _ _ <-]. exists []. auto.
Qed.

(** A row of digits followed by blanks or by nothing is read whole. *)
Lemma scan_digits_row (ds ws : list ascii) :
  forallb Py_ISDIGIT ds = true ->
  forallb Py_ISSPACE ws = true ->
  forall acc digits,
    scan_digits (ds ++ ws) acc digits false =
    Some (fold_left (fun acc c => acc * 10 + digit_value c)%Z ds acc,
          (digits + length ds)%nat, ws).
Proof.
  intros Hds Hws. induction ds as [|c ds IH]; intros acc digits.
  - simpl. rewrite Nat.add_0_r. destruct ws as [|b ws]; [reflexivity|].
    simpl in Hws. apply andb_prop in Hws as [Hb _].
    destruct (blank_is_no_digit b Hb) as [Hd Hu]. simpl. rewrite Hd, Hu.
    reflexivity.
  - simpl in Hds. apply andb_prop in Hds as [Hc Hds]. simpl. rewrite Hc.
    rewrite (IH Hds). do 2 f_equal. f_equal. simpl. lia.
Qed.

(** [int] only ever fails with a [ValueError]. *)
Lemma int_of_digits_error (limit : nat) (negative : bool) (l : list ascii) (e : exn) :
  int_of_digits limit negative l = inl e -> exn_class e = "ValueError".
Proof.
  unfold int_of_digits.
  repeat match goal with
         | |- context [match ?x with _ => _ end] => destruct x
         | |- context [if ?b then _ else _] => destruct b
         end;
    intros [= <-]; reflexivity.
Qed.

Lemma int_of_str_error (limit : nat) (s : string) (e : exn) :
  int_of_str limit s = inl e -> exn_class e = "ValueError".
Proof.
  unfold int_of_str.
  destruct (skip_spaces (list_ascii_of_string s)) as [|c l].
  - intros [= <-]. reflexivity.
  - destruct (Ascii.eqb c "+"); [|destruct (Ascii.eqb c "-")];
      apply int_of_digits_error.
Qed.

(** A text [int] accepts holds nothing but digits, underscores, signs
    and blanks. *)
Lemma int_of_digits_alphabet (limit : nat) (negative : bool) (l : list ascii) (n : Z) :
  int_of_digits limit negative l = inr n ->
  forallb int_literal_char l = true.
Proof.
  unfold int_of_digits. destruct l as [|c l]; [discriminate|].
  destruct (Ascii.eqb c "_"); [discriminate|].
  destruct (scan_digits (c :: l) 0 0 false) as [[[value digits] rest]|] eqn:Hscan;
    [|discriminate].
  destruct (digits =? 0)%nat; [discriminate|].
  destruct ((640 <? digits)%nat && (0 <? limit)%nat && (limit <? digits)%nat);
    [discriminate|].
  destruct (skip_spaces rest) eqn:Hrest; [|discriminate]. intros _.
  apply scan_digits_consumes in Hscan as (read & -> & Hread).
  rewrite forallb_app, Hread. simpl.
  apply blanks_are_literal, skip_spaces_empty, Hrest.
Qed.

Lemma int_of_str_alphabet (limit : nat) (s : string) (n : Z) :
  int_of_str limit s = inr n ->
  forallb int_literal_char (list_ascii_of_string s) = true.
Proof.
  unfold int_of_str.
  destruct (skip_spaces_split (list_ascii_of_string s)) as (ws & Hs & Hws).
  rewrite Hs at 2. rewrite forallb_app, (blanks_are_literal ws Hws), andb_true_l.
  destruct (skip_spaces (list_ascii_of_string s)) as [|c l]; [discriminate|].
  destruct (Ascii.eqb c "+") eqn:Hplus; [|destruct (Ascii.eqb c "-") eqn:Hminus];
    intros Hn; apply int_of_digits_alphabet in Hn.
  - cbn [forallb]. rewrite Hn. unfold int_literal_char. rewrite Hplus.
    rewrite ?orb_true_r. reflexivity.
  - cbn [forallb]. rewrite Hn. unfold int_literal_char. rewrite Hminus.
    rewrite ?orb_true_r. reflexivity.
  - exact Hn.
Qed.

(** A row of digits between blanks is read as its value. *)
Lemma int_of_digits_row (limit : nat) (negative : bool) (ds ws : list ascii) :
  forallb Py_ISDIGIT ds = true ->
  forallb Py_ISSPACE ws = true ->
  ds <> [] ->
  (length ds <= 640 \/ limit = 0 \/ length ds <= limit)%nat ->
  int_of_digits limit negative (ds ++ ws) =
  inr (if negative then - decimal_value ds else decimal_value ds)%Z.
Proof.
  intros Hds Hws Hne Hlimit. unfold int_of_digits.
  rewrite (scan_digits_row ds ws Hds Hws).
  destruct ds as [|d ds]; [congruence|].
  assert (Hd : Py_ISDIGIT d = true).
  { simpl in Hds. apply andb_prop in Hds. tauto. }
  destruct (digit_is_plain d Hd) as (_ & Hus & _).
  cbn [app]. rewrite Hus. cbn [length Nat.add Nat.eqb].
  replace ((640 <? S (length ds))%nat && (0 <? limit)%nat &&
           (limit <? S (length ds))%nat) with false.
  - rewrite (skip_spaces_all_blank ws Hws). reflexivity.
  - symmetry. simpl in Hlimit.
    destruct (Nat.ltb_spec 640 (S (length ds))); [|reflexivity].
    destruct (Nat.ltb_spec 0 limit); [|reflexivity].
    destruct (Nat.ltb_spec limit (S (length ds))); [|reflexivity].
    lia.
Qed.

Lemma str_to_int_spec (limit : nat) (s : option string) (default : Z) :
  str_to_int limit s default =
  inr match s with
      | Some text =>
          match int_of_str limit text with
          | inr n => n
          | inl _ => default
          end
      | None => default
      end.
Proof.
  unfold str_to_int. destruct s as [text|]; simpl; [|reflexivity].
  destruct (int_of_str limit text) as [e|n] eqn:Hint; [|reflexivity].
  rewrite (int_of_str_error limit text e Hint). reflexivity.
Qed.

Lemma str_to_int_falls_back_on_blank (limit : nat) (text : string) (default : Z) :
  forallb Py_ISSPACE (list_ascii_of_string text) = true ->
  str_to_int limit (Some text) default = inr default.
Proof.
  intros Hblank. rewrite str_to_int_spec. unfold int_of_str.
  rewrite (skip_spaces_all_blank _ Hblank). reflexivity.
Qed.

Lemma strip_idempotent (s : string) : strip (strip s) = strip s.
Proof.
  rewrite !strip_strip_list, list_ascii_of_string_of_list_ascii. f_equal.
  destruct (strip_list_trimmed (list_ascii_of_string s)) as [Hleft Hright].
  unfold strip_list at 1. rewrite Hleft, Hright. apply rev_involutive.
Qed.


(** X19.  A text that is empty or blank, or that holds an ASCII
    character other than a digit, an underscore, a sign or a blank, is
    answered with the default. *)
Theorem str_to_int_falls_back_on_non_numbers
    (limit : nat) (text : string) (default : Z) :
  forallb Py_ISSPACE (list_ascii_of_string text) = true \/
  (exists c, In c (list_ascii_of_string text) /\
             (nat_of_ascii c < 128)%nat /\ int_literal_char c = false) ->
  str_to_int limit (Some text) default = inr default.
Proof.
  intros [Hblank | (c & Hin & _ & Hc)].
  - apply str_to_int_falls_back_on_blank. exact Hblank.
  - rewrite str_to_int_spec.
    destruct (int_of_str limit text) as [e|n] eqn:Hint; [reflexivity|].
    apply int_of_str_alphabet in Hint.
    rewrite forallb_forall in Hint. rewrite (Hint c Hin) in Hc. discriminate.
Qed.

(** X20.  A row of decimal digits, with or without a minus sign before
    it and blanks around it, is read as the number it writes, whatever
    the default; beyond 640 digits only within the interpreter's
    limit. *)
Theorem str_to_int_reads_decimal
    (limit : nat) (ws ds ws' : list ascii) (negative : bool) (default : Z) :
  forallb Py_ISSPACE ws = true ->
  forallb Py_ISSPACE ws' = true ->
  forallb Py_ISDIGIT ds = true ->
  ds <> [] ->
  (length ds <= 640 \/ limit = 0 \/ length ds <= limit)%nat ->
  str_to_int limit
    (Some (string_of_list_ascii
             (ws ++ (if negative then "-"%char :: ds else ds) ++ ws')))
    default =
  inr (if negative then - decimal_value ds else decimal_value ds)%Z.
Proof.
  intros Hws Hws' Hds Hne Hlimit. rewrite str_to_int_spec.
  unfold int_of_str. rewrite list_ascii_of_string_of_list_ascii.
  rewrite skip_spaces_blank by assumption.
  destruct negative.
  - cbn [app skip_spaces]. change (Py_ISSPACE "-") with false. cbv iota.
    change (Ascii.eqb "-" "+") with false. cbv iota.
    change (Ascii.eqb "-" "-") with true. cbv iota.
    rewrite int_of_digits_row by assumption. reflexivity.
  - destruct ds as [|d ds]; [congruence|].
    assert (Hd : Py_ISDIGIT d = true).
    { simpl in Hds. apply andb_prop in Hds. tauto. }
    destruct (digit_is_plain d Hd) as (Hsp & _ & Hplus & Hminus).
    cbn [app skip_spaces]. rewrite Hsp, Hplus, Hminus.
    change (d :: ds ++ ws') with ((d :: ds) ++ ws').
    rewrite int_of_digits_row by assumption. reflexivity.
Qed.

Section EnvironmentFacts.

Variable limit : nat.
Variable environ : gmap string string.

(** X21.  Importing the settings never fails: whatever the environment
    holds, each of the nine integer settings gets a value. *)
Theorem settings_always_load :
  exists cfg port db ttl broker_limit broker_retries api_port,
    qc_settings limit environ = inr cfg /\
    REDIS_PORT limit environ = inr port /\
    REDIS_DB limit environ = inr db /\
    REDIS_RESULT_TTL limit environ = inr ttl /\
    BROKER_TIME_LIMIT_MS limit environ = inr broker_limit /\
    BROKER_MAX_RETRIES limit environ = inr broker_retries /\
    API_PORT limit environ = inr api_port.
Proof.
  unfold qc_settings, REDIS_PORT, REDIS_DB, REDIS_RESULT_TTL,
    BROKER_TIME_LIMIT_MS, BROKER_MAX_RETRIES, API_PORT.
  rewrite !str_to_int_spec. repeat eexists.
Qed.

(** X22.  With the three task variables unset, or set to texts that are
    blank, the routes and the actor run under the default settings:
    300000 ms, 3 retries, 1024 shots. *)
Theorem qc_settings_default_when_unset :
  (forall name,
     In name ["QC_TASK_TIME_LIMIT_MS"; "QC_TASK_MAX_RETRIES"; "QC_TASK_DEFAULT_SHOTS"] ->
     match environ !! name with
     | Some text => forallb Py_ISSPACE (list_ascii_of_string text) = true
     | None => True
     end) ->
  qc_settings limit environ = inr default_settings.
Proof.
  intros Hunset.
  assert (Hread : forall name default,
    In name ["QC_TASK_TIME_LIMIT_MS"; "QC_TASK_MAX_RETRIES"; "QC_TASK_DEFAULT_SHOTS"] ->
    str_to_int limit (getenv environ name) default = inr default).
  { intros name default Hin. specialize (Hunset name Hin). unfold getenv.
    destruct (environ !! name) as [text|].
    - apply str_to_int_falls_back_on_blank. exact Hunset.
    - apply str_to_int_spec. }
  unfold qc_settings.
  rewrite !Hread by (simpl; tauto). reflexivity.
Qed.



End EnvironmentFacts.

(** ** app/logger.py *)

(** X25.  [setup_logger] configures a logger once: a second call, under
    whatever environment, returns the logger as the first call left it,
    so no handler is ever added twice; the name is kept. *)
Theorem setup_logger_configures_once
    (env1 env2 : option string) (rich1 rich2 : bool) (lg : Logger) :
  let configured := setup_logger env1 rich1 lg in
  setup_logger env2 rich2 configured = configured /\
  logger_handlers configured <> [] /\
  logger_name configured = logger_name lg.
Proof.
  unfold setup_logger. destruct (logger_handlers lg) as [|h hs] eqn:Hh; simpl.
  - repeat split. discriminate.
  - rewrite Hh. repeat split. discriminate.
Qed.

(** X26.  On a logger without handlers, [setup_logger] attaches exactly
    one handler and sets it to the logger's own level: INFO when
    ENVIRONMENT, compared without regard to case, is [production], and
    DEBUG otherwise, also when it is unset. *)
Theorem setup_logger_fresh
    (env : option string) (rich : bool) (lg : Logger) :
  logger_handlers lg = [] ->
  let configured := setup_logger env rich lg in
  let production :=
    match env with
    | Some value => String.eqb (lower value) "production"
    | None => false
    end in
  logger_level configured = (if production then logging_INFO else logging_DEBUG) /\
  exists handler,
    logger_handlers configured = [handler] /\
    handler_level handler = Some (logger_level configured).
Proof.
  intros Hfresh. unfold setup_logger. rewrite Hfresh. cbn zeta.
  destruct env as [value|].
  - destruct (String.eqb (lower value) "production"); simpl.
    + split; [reflexivity|]. eexists. split; reflexivity.
    + split; [reflexivity|]. destruct rich; eexists; split; reflexivity.
  - change (String.eqb (lower "development") "production") with false. simpl.
    split; [reflexivity|]. destruct rich; eexists; split; reflexivity.
Qed.

(** ** The further properties at the sample inputs *)

Lemma sample_submitted_reachable :
  @reachable sample_collaborators default_settings sample_submitted.
Proof.
  change sample_submitted
    with (snd (run (@submit_task sample_collaborators default_settings sample_body)
                 sample_world)).
  apply reach_submit, reach_init.
Qed.

Lemma sample_submit_run :
  run (@submit_task sample_collaborators default_settings sample_body) sample_world =
    (inr sample_response, sample_submitted).
Proof. vm_compute. reflexivity. Qed.

Lemma sample_worker_run :
  run (@worker_step sample_collaborators default_settings) sample_submitted =
    (inr tt, sample_completed).
Proof. vm_compute. reflexivity. Qed.

Lemma sample_padded_body :
  let ws := " " in
  let ws' := String (ascii_of_nat 10) EmptyString in
  (forallb isspace (list_ascii_of_string ws) = true /\
   forallb isspace (list_ascii_of_string ws') = true) /\
  run (@submit_task sample_collaborators default_settings
         {| qc := ws +:+ qc sample_body +:+ ws' |}) sample_world =
  run (@submit_task sample_collaborators default_settings
         {| qc := qc sample_body |}) sample_world.
Proof.
  intros ws ws'.
  assert (Hws : forallb isspace (list_ascii_of_string ws) = true) by reflexivity.
  assert (Hws' : forallb isspace (list_ascii_of_string ws') = true) by reflexivity.
  split; [split; [exact Hws | exact Hws']|].
  exact (@submit_task_ignores_padding sample_collaborators default_settings
           ws (qc sample_body) ws' sample_world Hws Hws').
Defined.

Lemma sample_submission_frame :
  run (@submit_task sample_collaborators default_settings sample_body) sample_world =
    (inr sample_response, sample_submitted) /\
  (exists (circuit : @Circuit sample_collaborators) msg,
     @qasm3_loads sample_collaborators (strip (qc sample_body)) = inr circuit /\
     @qasm3_dumps sample_collaborators circuit = inr (kwargs_qasm3_str msg) /\
     message_id msg = task_id sample_response /\
     queue sample_submitted = queue sample_world ++ [msg]) /\
  (forall key, key <> _submitted_key (task_id sample_response) ->
     redis sample_submitted !! key = redis sample_world !! key) /\
  results sample_submitted = results sample_world /\
  backend_fault sample_submitted = backend_fault sample_world.
Proof.
  split; [exact sample_submit_run|].
  exact (@accepted_submission_frame sample_collaborators default_settings
           sample_body sample_world sample_submitted sample_response
           sample_submit_run).
Defined.

Lemma sample_query_after_submit :
  (backend_fault sample_world = None /\
   results sample_world !! task_id sample_response = None) /\
  fst (run (@task_status sample_collaborators (task_id sample_response))
         sample_submitted) = inr StillPending.
Proof.
  assert (Hfault : backend_fault sample_world = None) by reflexivity.
  assert (Hres : results sample_world !! task_id sample_response = None)
    by (vm_compute; reflexivity).
  split; [split; [exact Hfault | exact Hres]|].
  exact (@pending_right_after_submit sample_collaborators default_settings
           sample_body sample_world sample_submitted sample_response
           sample_submit_run Hfault Hres).
Defined.

Lemma sample_round_trip :
  (queue sample_world = [] /\ backend_fault sample_world = None) /\
  exists counts,
    is_Some (redis sample_completed !! _submitted_key (task_id sample_response)) /\
    fst (run (@task_status sample_collaborators (task_id sample_response))
           sample_completed) = inr (Completed (dict_of_counts counts)) /\
    redis (snd (run (@task_status sample_collaborators (task_id sample_response))
                  sample_completed))
      !! _submitted_key (task_id sample_response) = None.
Proof.
  assert (Hqueue : queue sample_world = []) by reflexivity.
  assert (Hfault : backend_fault sample_world = None) by reflexivity.
  split; [split; [exact Hqueue | exact Hfault]|].
  exact (@submit_work_query sample_collaborators default_settings
           sample_body sample_world sample_submitted sample_completed
           sample_response Hqueue Hfault sample_submit_run sample_worker_run).
Defined.

Lemma sample_bytes_result :
  let tid := "t1" in
  let raw := PyBytes [Byte.x7b; Byte.x7d] in
  let v := PyDict [] in
  let w1 := with_results {[ tid := raw ]} sample_submitted in
  let w2 := with_results {[ tid := v ]} sample_submitted in
  (get_result_outcome w1 tid = inr raw /\ get_result_outcome w2 tid = inr v) /\
  fst (run (@task_status sample_collaborators tid) w1) =
    fst (run (@task_status sample_collaborators tid) w2) /\
  redis (snd (run (@task_status sample_collaborators tid) w1)) =
    redis (snd (run (@task_status sample_collaborators tid) w2)).
Proof.
  intros tid raw v w1 w2.
  assert (Hraw : is_bytes_like raw = Some [Byte.x7b; Byte.x7d])
    by reflexivity.
  assert (Hutf : @bytes_decode_utf8 sample_collaborators
                   [Byte.x7b; Byte.x7d] = inr "{}")
    by reflexivity.
  assert (Hjson : @json_loads sample_collaborators "{}" = inr v) by reflexivity.
  assert (Hv : is_bytes_like v = None) by reflexivity.
  assert (Hout1 : get_result_outcome w1 tid = inr raw) by (vm_compute; reflexivity).
  assert (Hout2 : get_result_outcome w2 tid = inr v) by (vm_compute; reflexivity).
  assert (Hredis : redis w1 = redis w2) by reflexivity.
  split; [split; [exact Hout1 | exact Hout2]|].
  exact (@bytes_result_answered_as_decoded sample_collaborators tid w1 w2 raw
           [Byte.x7b; Byte.x7d] "{}" v
           Hraw Hutf Hjson Hv Hout1 Hout2 Hredis).
Defined.

Lemma sample_three_pending_queries :
  let tid := task_id sample_response in
  (is_Some (redis sample_submitted !! _submitted_key tid) /\
   results sample_submitted !! tid = None /\
   backend_fault sample_submitted = None) /\
  fst (run (@task_status sample_collaborators tid)
         (@after_queries sample_collaborators 3 tid sample_submitted)) =
    inr StillPending /\
  redis (@after_queries sample_collaborators 3 tid sample_submitted) =
    redis sample_submitted.
Proof.
  intros tid.
  assert (Hmarker : is_Some (redis sample_submitted !! _submitted_key tid))
    by (vm_compute; eauto).
  assert (Hres : results sample_submitted !! tid = None)
    by (vm_compute; reflexivity).
  assert (Hfault : backend_fault sample_submitted = None) by reflexivity.
  split; [split; [exact Hmarker | split; [exact Hres | exact Hfault]]|].
  exact (@pending_queries_are_stable sample_collaborators tid sample_submitted
           Hmarker Hres Hfault 3).
Defined.

Lemma sample_unparsable_message :
  let e := Exception "QASM3ImporterError" "parse error" in
  @qasm3_loads sample_collaborators "garbage" = inl e /\
  run (@qasm3_task sample_collaborators "abc" "garbage" 1024) sample_submitted =
    (inl e, sample_submitted).
Proof.
  intros e.
  assert (Hloads : @qasm3_loads sample_collaborators "garbage" = inl e)
    by reflexivity.
  split; [exact Hloads|].
  exact (@qasm3_task_failure_leaves_no_trace sample_collaborators
           "abc" "garbage" 1024 sample_submitted e (or_introl Hloads)).
Defined.

Lemma sample_actor_run :
  let tid := kwargs_task_id sample_message in
  let text := qc sample_body in
  let key := "task_submitted:" +:+ tid in
  let w' := snd (run (@qasm3_task sample_collaborators tid text 1024) sample_submitted) in
  (@qasm3_loads sample_collaborators text = inr text /\
   @simulate_counts sample_collaborators text 1024 = inr sample_counts) /\
  fst (run (@qasm3_task sample_collaborators tid text 1024) sample_submitted) =
    inr (dict_of_counts sample_counts) /\
  history w' = history sample_submitted ++ [EvDelete key] /\
  redis w' !! key = None /\
  (forall other, other <> key -> redis w' !! other = redis sample_submitted !! other) /\
  results w' = results sample_submitted /\ queue w' = queue sample_submitted.
Proof.
  intros tid text key w'.
  assert (Hloads : @qasm3_loads sample_collaborators text = inr text)
    by reflexivity.
  assert (Hsim : @simulate_counts sample_collaborators text 1024 = inr sample_counts)
    by reflexivity.
  split; [split; [exact Hloads | exact Hsim]|].
  exact (@qasm3_task_success sample_collaborators tid text 1024 sample_submitted
           text sample_counts Hloads Hsim).
Defined.

Lemma sample_worker_leaves_marker :
  redis (snd (run (@worker_step sample_collaborators default_settings)
                sample_submitted)) = redis sample_submitted.
Proof.
  exact (@worker_step_keeps_every_marker sample_collaborators default_settings
           sample_submitted sample_submitted_reachable).
Defined.


Lemma sample_reachable_marker :
  let key := _submitted_key (task_id sample_response) in
  redis sample_submitted !! key = Some (Byte.x31 :: nil, 900000%Z) /\
  Byte.x31 :: nil = Byte.x31 :: nil /\
  900000%Z = (QC_TASK_TIME_LIMIT_MS default_settings *
              QC_TASK_MAX_RETRIES default_settings)%Z /\
  exists u, key = _submitted_key (UUID.str u) /\
            submitted (UUID.str u) sample_submitted.
Proof.
  intros key.
  assert (Hkey : redis sample_submitted !! key = Some (Byte.x31 :: nil, 900000%Z))
    by (vm_compute; reflexivity).
  split; [exact Hkey|].
  exact (@reachable_markers_are_uniform sample_collaborators default_settings
           sample_submitted key (Byte.x31 :: nil) 900000%Z
           sample_submitted_reachable Hkey).
Defined.

Lemma sample_two_racing_queries :
  let tid := task_id sample_response in
  let r := dict_of_counts sample_counts in
  let pool := [Querying (@task_status sample_collaborators tid);
               Querying (@task_status sample_collaborators tid)] in
  let final := run_schedule [0; 1; 1; 0]%nat pool sample_completed in
  (get_result_outcome sample_completed tid = inr r /\
   Forall (@query_stage sample_collaborators tid r) pool) /\
  (forall t, In t (fst final) -> thread_finished t = true ->
     t = Querying (Ret (Completed r))) /\
  get_result_outcome (snd final) tid = inr r /\
  length (fst final) = length pool.
Proof.
  intros tid r pool final.
  assert (Hout : get_result_outcome sample_completed tid = inr r)
    by (vm_compute; reflexivity).
  assert (Hdec : @decode_result sample_collaborators r = inr r) by reflexivity.
  assert (Hdict : is_dict r = true) by reflexivity.
  assert (Hpool : Forall (@query_stage sample_collaborators tid r) pool)
    by (repeat constructor).
  split; [split; [exact Hout | exact Hpool]|].
  exact (@racing_queries_all_complete sample_collaborators tid r r
           [0; 1; 1; 0]%nat pool sample_completed Hout Hdec Hdict Hpool).
Defined.

Lemma sample_port_with_letter :
  (exists c, In c (list_ascii_of_string "80a0") /\
             (nat_of_ascii c < 128)%nat /\ int_literal_char c = false) /\
  str_to_int 4300 (Some "80a0") 8000 = inr 8000%Z.
Proof.
  assert (Hletter : exists c, In c (list_ascii_of_string "80a0") /\
                              (nat_of_ascii c < 128)%nat /\
                              int_literal_char c = false).
  { exists "a"%char. split; [simpl; tauto|].
    split; [vm_compute; lia | reflexivity]. }
  split; [exact Hletter|].
  exact (str_to_int_falls_back_on_non_numbers 4300 "80a0" 8000 (or_intror Hletter)).
Defined.

Lemma sample_port_text :
  let ws := [" "%char] in
  let ds := ["6"%char; "3"%char; "8"%char; "0"%char] in
  let ws' := [ascii_of_nat 10] in
  decimal_value ds = 6380%Z /\
  str_to_int 4300 (Some (string_of_list_ascii (ws ++ ds ++ ws'))) 6379 =
    inr (decimal_value ds).
Proof.
  intros ws ds ws'. split; [reflexivity|].
  refine (str_to_int_reads_decimal 4300 ws ds ws' false 6379 _ _ _ _ _).
  - reflexivity.
  - reflexivity.
  - reflexivity.
  - discriminate.
  - left. simpl. lia.
Defined.

Lemma sample_empty_environment :
  qc_settings 4300 (∅ : gmap string string) = inr default_settings.
Proof.
  refine (qc_settings_default_when_unset 4300 ∅ _).
  intros name _. rewrite lookup_empty. exact I.
Defined.

Lemma sample_fresh_logger :
  let lg := {| logger_name := "classiq"; logger_level := 0;
               logger_handlers := [] |} in
  let configured := setup_logger (Some "Production") true lg in
  logger_level configured = logging_INFO /\
  exists handler,
    logger_handlers configured = [handler] /\
    handler_level handler = Some (logger_level configured).
Proof.
  intros lg.
  exact (setup_logger_fresh (Some "Production") true lg eq_refl).
Defined.
